(** * The session store API of [backend/routers/sessions.py]

    A shallow embedding of the six request handlers of the sessions router
    and of the parts of the framework they rely on (request validation,
    [json.dumps]/[json.loads] on lists of strings, the relational store),
    followed by the properties of the handlers. *)

From Stdlib Require Import ZArith NArith List String Ascii Bool Lia PrimFloat.
From Stdlib Require Import Permutation.
Import ListNotations.

Local Open Scope string_scope.
Local Open Scope Z_scope.

(** ** Literal types *)

(** [IssueType = Literal["seo-issues", ...]] *)
Inductive IssueType : Type :=
| SeoIssues
| MissingTitle
| MissingMetaDescription
| MissingH1
| SlowPerformance.

Definition IssueType_str (t : IssueType) : string :=
  match t with
  | SeoIssues => "seo-issues"
  | MissingTitle => "missing-title"
  | MissingMetaDescription => "missing-meta-description"
  | MissingH1 => "missing-h1"
  | SlowPerformance => "slow-performance"
  end.

Definition IssueType_args : list IssueType :=
  [SeoIssues; MissingTitle; MissingMetaDescription; MissingH1; SlowPerformance].

(** Validation of one value against a [Literal]: the value has to be equal
    to one of the arguments of the [Literal], compared in their order. *)
Fixpoint Literal_validate {A : Type} (str : A -> string) (args : list A)
  (s : string) : option A :=
  match args with
  | [] => None
  | a :: args' =>
      if String.eqb s (str a) then Some a else Literal_validate str args' s
  end.

Definition IssueType_validate : string -> option IssueType :=
  Literal_validate IssueType_str IssueType_args.

(** [ResultStatus = Literal["pending", "completed", "error"]] *)
Inductive ResultStatus : Type :=
| Pending
| Completed
| Error.

Definition ResultStatus_str (t : ResultStatus) : string :=
  match t with
  | Pending => "pending"
  | Completed => "completed"
  | Error => "error"
  end.

Definition ResultStatus_args : list ResultStatus := [Pending; Completed; Error].

Definition ResultStatus_validate : string -> option ResultStatus :=
  Literal_validate ResultStatus_str ResultStatus_args.

(** [Tier = float] *)
Definition Tier : Type := float.

(** Validation of [list[T]]: every element is validated, in order; one
    failure fails the list. *)
Fixpoint list_validate {A : Type} (v : string -> option A) (l : list string)
  : option (list A) :=
  match l with
  | [] => Some []
  | s :: l' =>
      match v s, list_validate v l' with
      | Some a, Some r => Some (a :: r)
      | _, _ => None
      end
  end.

(** ** Rows of the three tables

    [datetime] values are points on an integer time line. *)

Module Session.
Record t : Type := mk {
  id : Z;
  createdAt : Z;
  (* [None]: the row object has no attribute [name] *)
  name : option string
}.
End Session.

Module SessionSearch.
Record t : Type := mk {
  id : Z;
  sessionId : Z;
  query : string;
  issuesFilter : string;
  maxResultsRequested : Z;
  status : string;
  checkedWebsitesCount : Z;
  lastSearchCursor : option string;
  completedAt : option Z
}.
End SessionSearch.

Module SessionResult.
Record t : Type := mk {
  id : Z;
  createdAt : Z;
  sessionId : Z;
  url : string;
  domain : string;
  pageCount : Z;
  tier : Tier;
  issuesDetected : option string;
  lighthouseJson : option string;
  contactEmail : option string;
  status : string
}.
End SessionResult.

(** ** Request and response models *)

Module SessionRead.
Record t : Type := mk {
  id : Z;
  created_at : Z;
  name : string;
  is_configured : bool;
  is_completed : bool
}.
End SessionRead.

Module SessionSearchCreate.
Record t : Type := mk {
  query : string;
  issues : list IssueType;
  max_results : Z
}.
End SessionSearchCreate.

Module SessionSearchRead.
Record t : Type := mk {
  session_id : Z;
  query : string;
  issues : list IssueType;
  max_results_requested : Z;
  checked_websites_count : Z;
  last_search_cursor : option string;
  is_completed : bool
}.
End SessionSearchRead.

Module SessionResultRead.
Record t : Type := mk {
  id : Z;
  created_at : Z;
  session_id : Z;
  url : string;
  domain : string;
  page_count : Z;
  tier : Tier;
  issues_detected : list IssueType;
  lighthouse_json : option string;
  contact_email : option string;
  status : ResultStatus
}.
End SessionResultRead.

Module SessionResultUpdate.
Record t : Type := mk {
  tier : option Tier;
  status : option ResultStatus
}.
End SessionResultUpdate.

(** ** [json.dumps] and [json.loads] on lists of strings

    A Python [str] is modelled by a [string] whose characters are the code
    points below 256.  [json_dumps] follows the encoder of the standard
    library with its default options ([ensure_ascii], separators [", "]);
    [json_loads] follows the decoder on the texts that are an array of
    strings, and gives [None] on every other text: either [json.loads]
    raises there, or it returns a value that is not a list of [str], which
    the response model refuses. *)

Definition dquote : ascii := "034"%char.
Definition backslash : ascii := "092"%char.

Definition hex_digit (n : N) : ascii :=
  if (n <? 10)%N then ascii_of_N (48 + n) else ascii_of_N (87 + n).

(** [ESCAPE_DCT] and the [\uXXXX] form for everything outside [' '..'~'] *)
Definition escape_char (c : ascii) : string :=
  let n := N_of_ascii c in
  if Ascii.eqb c dquote then String backslash (String dquote EmptyString)
  else if Ascii.eqb c backslash then String backslash (String backslash EmptyString)
  else if (n =? 8)%N then String backslash "b"
  else if (n =? 12)%N then String backslash "f"
  else if (n =? 10)%N then String backslash "n"
  else if (n =? 13)%N then String backslash "r"
  else if (n =? 9)%N then String backslash "t"
  else if ((n <? 32) || (126 <? n))%N then
    String backslash
      (String "u" (String "0" (String "0"
         (String (hex_digit (n / 16)) (String (hex_digit (n mod 16)) EmptyString)))))
  else String c EmptyString.

Fixpoint escape_string (s : string) : string :=
  match s with
  | EmptyString => EmptyString
  | String c s' => escape_char c ++ escape_string s'
  end.

Definition encode_str (s : string) : string :=
  String dquote (escape_string s ++ String dquote EmptyString).

Fixpoint encode_items (l : list string) : string :=
  match l with
  | [] => EmptyString
  | [s] => encode_str s
  | s :: l' => encode_str s ++ ", " ++ encode_items l'
  end.

Definition json_dumps (l : list string) : string :=
  "[" ++ encode_items l ++ "]".

(** The decoder reads the text one character at a time. *)
Inductive jstate : Type :=
| JStart                                    (* before the opening bracket *)
| JOpen                                     (* after the opening bracket *)
| JNext                                     (* after a comma *)
| JStr (acc : list ascii)                   (* in a string, [acc] reversed *)
| JEsc (acc : list ascii)                   (* after a backslash *)
| JUni (acc : list ascii) (k : nat) (v : N) (* in [\u], [k] digits to read *)
| JAfter                                    (* after a closing quote *)
| JEnd                                      (* after the closing bracket *)
| JFail.

Definition is_whitespace (c : ascii) : bool :=
  let n := N_of_ascii c in
  ((n =? 32) || (n =? 9) || (n =? 10) || (n =? 13))%N.

Definition hex_value (c : ascii) : option N :=
  let n := N_of_ascii c in
  if ((48 <=? n) && (n <=? 57))%N then Some (n - 48)%N
  else if ((97 <=? n) && (n <=? 102))%N then Some (n - 87)%N
  else if ((65 <=? n) && (n <=? 70))%N then Some (n - 55)%N
  else None.

Fixpoint string_of_rev (acc : list ascii) (tl : string) : string :=
  match acc with
  | [] => tl
  | c :: acc' => string_of_rev acc' (String c tl)
  end.

Definition unescape (c : ascii) : option ascii :=
  if Ascii.eqb c dquote then Some dquote
  else if Ascii.eqb c backslash then Some backslash
  else if Ascii.eqb c "/" then Some "/"%char
  else if Ascii.eqb c "b" then Some (ascii_of_N 8)
  else if Ascii.eqb c "f" then Some (ascii_of_N 12)
  else if Ascii.eqb c "n" then Some (ascii_of_N 10)
  else if Ascii.eqb c "r" then Some (ascii_of_N 13)
  else if Ascii.eqb c "t" then Some (ascii_of_N 9)
  else None.

(** The characters of [s] pushed on [acc], as the decoder collects them. *)
Fixpoint push_chars (s : string) (acc : list ascii) : list ascii :=
  match s with
  | EmptyString => acc
  | String c s' => push_chars s' (c :: acc)
  end.

(** One character; [items] are the strings read so far, last one first. *)
Definition jstep (st : jstate) (items : list string) (c : ascii)
  : jstate * list string :=
  match st with
  | JStart =>
      if is_whitespace c then (JStart, items)
      else if Ascii.eqb c "[" then (JOpen, items)
      else (JFail, items)
  | JOpen =>
      if is_whitespace c then (JOpen, items)
      else if Ascii.eqb c dquote then (JStr [], items)
      else if Ascii.eqb c "]" then (JEnd, items)
      else (JFail, items)
  | JNext =>
      if is_whitespace c then (JNext, items)
      else if Ascii.eqb c dquote then (JStr [], items)
      else (JFail, items)
  | JStr acc =>
      if Ascii.eqb c dquote then (JAfter, string_of_rev acc EmptyString :: items)
      else if Ascii.eqb c backslash then (JEsc acc, items)
      else if (N_of_ascii c <? 32)%N then (JFail, items)
      else (JStr (c :: acc), items)
  | JEsc acc =>
      if Ascii.eqb c "u" then (JUni acc 4 0%N, items)
      else match unescape c with
           | Some d => (JStr (d :: acc), items)
           | None => (JFail, items)
           end
  | JUni acc k v =>
      match hex_value c, k with
      | Some h, S O =>
          let v' := (16 * v + h)%N in
          if (v' <? 256)%N then (JStr (ascii_of_N v' :: acc), items)
          else (JFail, items)
      | Some h, S k' => (JUni acc k' (16 * v + h)%N, items)
      | _, _ => (JFail, items)
      end
  | JAfter =>
      if is_whitespace c then (JAfter, items)
      else if Ascii.eqb c "," then (JNext, items)
      else if Ascii.eqb c "]" then (JEnd, items)
      else (JFail, items)
  | JEnd =>
      if is_whitespace c then (JEnd, items) else (JFail, items)
  | JFail => (JFail, items)
  end.

Fixpoint jrun (st : jstate) (items : list string) (s : string)
  : jstate * list string :=
  match s with
  | EmptyString => (st, items)
  | String c s' => let (st', items') := jstep st items c in jrun st' items' s'
  end.

Definition json_loads (s : string) : option (list string) :=
  match jrun JStart [] s with
  | (JEnd, items) => Some (rev items)
  | _ => None
  end.

(** ** The store and the handler monad *)

Record Db : Type := mkDb {
  session_rows : list Session.t;
  sessionsearch_rows : list SessionSearch.t;
  sessionresult_rows : list SessionResult.t;
  (* next value of the id sequence of each table this API inserts into *)
  session_seq : Z;
  sessionsearch_seq : Z
}.

Definition empty_db : Db := mkDb [] [] [] 1 1.

Inductive Failure : Type :=
| HTTPException (status_code : Z) (detail : string)
| RequestValidationError      (* the body fails its model: 422 *)
| InternalServerError.        (* any exception the handler does not catch *)

(** A handler takes the store and gives the store it leaves and either a
    failure or a value; the writes made before a failure stay. *)
Definition Handler (A : Type) : Type := Db -> Db * (Failure + A).

Definition ret {A : Type} (a : A) : Handler A := fun db => (db, inr a).

Definition raise {A : Type} (e : Failure) : Handler A := fun db => (db, inl e).

Definition bind {A B : Type} (m : Handler A) (k : A -> Handler B) : Handler B :=
  fun db =>
    match m db with
    | (db', inl e) => (db', inl e)
    | (db', inr a) => k a db'
    end.

Declare Scope handler_scope.
Delimit Scope handler_scope with handler.
Notation "x <- m ;; k" := (bind m (fun x => k))
  (at level 100, m at next level, right associativity) : handler_scope.
Local Open Scope handler_scope.

(** An exception-raising pure step. *)
Definition or_raise {A : Type} (e : Failure) (o : option A) : Handler A :=
  match o with
  | Some a => ret a
  | None => raise e
  end.

(** *** Queries *)

(** [order={"createdAt": "desc"}]: insertion into a list that is already
    in descending order, before the first row that is not newer. *)
Fixpoint insert_desc {A : Type} (key : A -> Z) (x : A) (l : list A) : list A :=
  match l with
  | [] => [x]
  | y :: l' => if key y <=? key x then x :: l else y :: insert_desc key x l'
  end.

Definition order_desc {A : Type} (key : A -> Z) (l : list A) : list A :=
  fold_right (insert_desc key) [] l.

(** [skip=..., take=...] *)
Definition page {A : Type} (skip take : nat) (l : list A) : list A :=
  firstn take (skipn skip l).

Definition search_of_session (db : Db) (session_id : Z) : option SessionSearch.t :=
  find (fun r => SessionSearch.sessionId r =? session_id) (sessionsearch_rows db).

(** Modelled from the spec: [db.session.create(data={})] of the store
    client, which is not among the sources.  It inserts a Session row with a
    server-assigned id, the next value of the table's sequence, and the
    creation time; no name is set. *)
Definition db_session_create (now : Z) : Handler Session.t :=
  fun db =>
    let row := Session.mk (session_seq db) now None in
    (mkDb (session_rows db ++ [row]) (sessionsearch_rows db)
          (sessionresult_rows db) (session_seq db + 1) (sessionsearch_seq db),
     inr row).

(** Modelled from the spec: [db.session.find_many(skip, take, order,
    include={"search": True})] of the store client: a page of the sessions,
    most recent first, each with its Search when it has one.  The paging
    arguments are naturals: what the client does with a negative one is not
    part of this repository. *)
Definition db_session_find_many (skip take : nat)
  : Handler (list (Session.t * option SessionSearch.t)) :=
  fun db =>
    (db, inr (map (fun s => (s, search_of_session db (Session.id s)))
                  (page skip take (order_desc Session.createdAt (session_rows db))))).

(** Modelled from the spec: [db.session.find_unique(where={"id": ...},
    include={"search": True})] of the store client. *)
Definition db_session_find_unique (id : Z)
  : Handler (option (Session.t * option SessionSearch.t)) :=
  fun db =>
    (db, inr (match find (fun s => Session.id s =? id) (session_rows db) with
              | Some s => Some (s, search_of_session db (Session.id s))
              | None => None
              end)).

(** The [data] of [db.sessionsearch.create] in [upsert_session_search]. *)
Module SessionSearchCreateInput.
Record t : Type := mk {
  session_connect_id : Z;
  query : string;
  issuesFilter : string;
  maxResultsRequested : Z;
  status : string
}.
End SessionSearchCreateInput.

(** Modelled from the spec: [db.sessionsearch.create] of the store client.
    The row gets the next id of the table and the creation defaults of the
    worker-owned columns (count 0, no cursor, no completion time).  The
    store refuses the insert when the session to connect does not exist or
    already has a Search ([session_id] is unique). *)
Definition db_sessionsearch_create (data : SessionSearchCreateInput.t)
  : Handler SessionSearch.t :=
  fun db =>
    let sid := SessionSearchCreateInput.session_connect_id data in
    if existsb (fun s => Session.id s =? sid) (session_rows db)
       && negb (existsb (fun r => SessionSearch.sessionId r =? sid) (sessionsearch_rows db))
    then
      let row := SessionSearch.mk (sessionsearch_seq db) sid
                   (SessionSearchCreateInput.query data)
                   (SessionSearchCreateInput.issuesFilter data)
                   (SessionSearchCreateInput.maxResultsRequested data)
                   (SessionSearchCreateInput.status data)
                   0 None None in
      (mkDb (session_rows db) (sessionsearch_rows db ++ [row])
            (sessionresult_rows db) (session_seq db) (sessionsearch_seq db + 1),
       inr row)
    else (db, inl InternalServerError).

(** The [data] of [db.sessionsearch.update] in [upsert_session_search]. *)
Module SessionSearchUpdateInput.
Record t : Type := mk {
  query : string;
  issuesFilter : string;
  maxResultsRequested : Z
}.
End SessionSearchUpdateInput.

Definition SessionSearch_set (data : SessionSearchUpdateInput.t)
  (r : SessionSearch.t) : SessionSearch.t :=
  SessionSearch.mk (SessionSearch.id r) (SessionSearch.sessionId r)
    (SessionSearchUpdateInput.query data)
    (SessionSearchUpdateInput.issuesFilter data)
    (SessionSearchUpdateInput.maxResultsRequested data)
    (SessionSearch.status r) (SessionSearch.checkedWebsitesCount r)
    (SessionSearch.lastSearchCursor r) (SessionSearch.completedAt r).

(** Modelled from the spec: [db.sessionsearch.update(where={"id": ...},
    data=...)] of the store client: the columns named in [data] are written
    to the row with this id, the others stay; the result is the row as
    written, or [None] when there is no such row. *)
Definition db_sessionsearch_update (id : Z) (data : SessionSearchUpdateInput.t)
  : Handler (option SessionSearch.t) :=
  fun db =>
    let rows := map (fun r => if SessionSearch.id r =? id
                              then SessionSearch_set data r else r)
                    (sessionsearch_rows db) in
    (mkDb (session_rows db) rows (sessionresult_rows db)
          (session_seq db) (sessionsearch_seq db),
     inr (find (fun r => SessionSearch.id r =? id) rows)).

(** Modelled from the spec: [db.sessionsearch.find_unique(where=
    {"sessionId": ...})] of the store client. *)
Definition db_sessionsearch_find_unique (session_id : Z)
  : Handler (option SessionSearch.t) :=
  fun db => (db, inr (search_of_session db session_id)).

(** Modelled from the spec: [db.sessionresult.find_many(where={"sessionId":
    ...}, skip, take, order)] of the store client: a page of the results of
    one session, most recent first. *)
Definition db_sessionresult_find_many (session_id : Z) (skip take : nat)
  : Handler (list SessionResult.t) :=
  fun db =>
    (db, inr (page skip take
                (order_desc SessionResult.createdAt
                   (filter (fun r => SessionResult.sessionId r =? session_id)
                      (sessionresult_rows db))))).

(** Modelled from the spec: [db.sessionresult.find_unique(where={"id":
    ...})] of the store client. *)
Definition db_sessionresult_find_unique (id : Z)
  : Handler (option SessionResult.t) :=
  fun db => (db, inr (find (fun r => SessionResult.id r =? id) (sessionresult_rows db))).

(** [SessionResultUpdateInput]: a dict with the optional keys [tier] and
    [status]; a key that was never assigned is [None] here. *)
Module SessionResultUpdateInput.
Record t : Type := mk {
  tier : option Tier;
  status : option string
}.
Definition empty : t := mk None None.
(** truth value of the dict: it has a key *)
Definition truthy (d : t) : bool :=
  match tier d, status d with
  | None, None => false
  | _, _ => true
  end.
End SessionResultUpdateInput.

Definition SessionResult_set (data : SessionResultUpdateInput.t)
  (r : SessionResult.t) : SessionResult.t :=
  SessionResult.mk (SessionResult.id r) (SessionResult.createdAt r)
    (SessionResult.sessionId r) (SessionResult.url r) (SessionResult.domain r)
    (SessionResult.pageCount r)
    (match SessionResultUpdateInput.tier data with
     | Some v => v
     | None => SessionResult.tier r
     end)
    (SessionResult.issuesDetected r) (SessionResult.lighthouseJson r)
    (SessionResult.contactEmail r)
    (match SessionResultUpdateInput.status data with
     | Some v => v
     | None => SessionResult.status r
     end).

(** Modelled from the spec: [db.sessionresult.update(where={"id": ...},
    data=...)] of the store client: the keys present in [data] are written
    to the row with this id; the result is the row as written, or [None]
    when there is no such row. *)
Definition db_sessionresult_update (id : Z) (data : SessionResultUpdateInput.t)
  : Handler (option SessionResult.t) :=
  fun db =>
    let rows := map (fun r => if SessionResult.id r =? id
                              then SessionResult_set data r else r)
                    (sessionresult_rows db) in
    (mkDb (session_rows db) (sessionsearch_rows db) rows
          (session_seq db) (sessionsearch_seq db),
     inr (find (fun r => SessionResult.id r =? id) rows)).

(** ** The handlers of the router *)

(** [getattr(session, "name", "Untitled session")] *)
Definition getattr_name (session : Session.t) : string :=
  match Session.name session with
  | Some n => n
  | None => "Untitled session"
  end.

Definition is_not_None {A : Type} (o : option A) : bool :=
  match o with
  | Some _ => true
  | None => false
  end.

Definition create_session (now : Z) : Handler SessionRead.t :=
  session <- db_session_create now ;;
  ret (SessionRead.mk (Session.id session) (Session.createdAt session)
         (getattr_name session) false false).

Definition SessionRead_of (row : Session.t * option SessionSearch.t) : SessionRead.t :=
  let (session, search) := row in
  let is_configured := is_not_None search in
  let is_completed :=
    match search with
    | Some s => is_not_None (SessionSearch.completedAt s)
    | None => false
    end in
  SessionRead.mk (Session.id session) (Session.createdAt session)
    (getattr_name session) is_configured is_completed.

Definition list_sessions (offset limit : nat) : Handler (list SessionRead.t) :=
  sessions <- db_session_find_many offset limit ;;
  ret (map SessionRead_of sessions).

(** [json.loads] of a stored tag list and its validation as
    [list[IssueType]] by the response model. *)
Definition load_issues (text : string) : Handler (list IssueType) :=
  raw <- or_raise InternalServerError (json_loads text) ;;
  or_raise InternalServerError (list_validate IssueType_validate raw).

(** The end of [upsert_session_search] and of [get_session_search]. *)
Definition SessionSearchRead_of (search : SessionSearch.t) : Handler SessionSearchRead.t :=
  issues <- load_issues (SessionSearch.issuesFilter search) ;;
  ret (SessionSearchRead.mk
         (SessionSearch.sessionId search)
         (SessionSearch.query search)
         issues
         (SessionSearch.maxResultsRequested search)
         (SessionSearch.checkedWebsitesCount search)
         (SessionSearch.lastSearchCursor search)
         (is_not_None (SessionSearch.completedAt search))).

Definition upsert_session_search (session_id : Z) (body : SessionSearchCreate.t)
  : Handler SessionSearchRead.t :=
  session <- db_session_find_unique session_id ;;
  match session with
  | None => raise (HTTPException 404 "Session not found")
  | Some (_, session_search) =>
      let issues_filter := json_dumps (map IssueType_str (SessionSearchCreate.issues body)) in
      search <-
        match session_search with
        | None =>
            db_sessionsearch_create
              (SessionSearchCreateInput.mk session_id
                 (SessionSearchCreate.query body) issues_filter
                 (SessionSearchCreate.max_results body) "pending")
        | Some found =>
            updated <- db_sessionsearch_update (SessionSearch.id found)
                         (SessionSearchUpdateInput.mk
                            (SessionSearchCreate.query body) issues_filter
                            (SessionSearchCreate.max_results body)) ;;
            (* [search.issuesFilter] on [None] raises *)
            or_raise InternalServerError updated
        end ;;
      SessionSearchRead_of search
  end.

Definition get_session_search (session_id : Z) : Handler SessionSearchRead.t :=
  search <- db_sessionsearch_find_unique session_id ;;
  match search with
  | None => raise (HTTPException 404 "Search not configured for session")
  | Some search => SessionSearchRead_of search
  end.

(** [json.loads(result.issuesDetected) if result.issuesDetected else []] *)
Definition load_issues_detected (text : option string) : Handler (list IssueType) :=
  match text with
  | None => ret []
  | Some EmptyString => ret []
  | Some text => load_issues text
  end.

(** The construction of the response, in [list_session_results] and in
    [update_session_result]. *)
Definition SessionResultRead_of (result : SessionResult.t) : Handler SessionResultRead.t :=
  issues <- load_issues_detected (SessionResult.issuesDetected result) ;;
  status <- or_raise InternalServerError
              (ResultStatus_validate (SessionResult.status result)) ;;
  ret (SessionResultRead.mk
         (SessionResult.id result)
         (SessionResult.createdAt result)
         (SessionResult.sessionId result)
         (SessionResult.url result)
         (SessionResult.domain result)
         (SessionResult.pageCount result)
         (SessionResult.tier result)
         issues
         (SessionResult.lighthouseJson result)
         (SessionResult.contactEmail result)
         status).

(** [for result in results: ... output.append(...)] *)
Fixpoint for_each {A B : Type} (f : A -> Handler B) (l : list A) : Handler (list B) :=
  match l with
  | [] => ret []
  | a :: l' =>
      b <- f a ;;
      output <- for_each f l' ;;
      ret (b :: output)
  end.

Definition list_session_results (session_id : Z) (offset limit : nat)
  : Handler (list SessionResultRead.t) :=
  results <- db_sessionresult_find_many session_id offset limit ;;
  for_each SessionResultRead_of results.

Definition update_session_result (session_id result_id : Z)
  (body : SessionResultUpdate.t) : Handler SessionResultRead.t :=
  result <- db_sessionresult_find_unique result_id ;;
  match result with
  | None => raise (HTTPException 404 "Result not found for session")
  | Some found =>
      if negb (SessionResult.sessionId found =? session_id)
      then raise (HTTPException 404 "Result not found for session")
      else
        let update_data := SessionResultUpdateInput.empty in
        let update_data :=
          match SessionResultUpdate.tier body with
          | Some v =>
              SessionResultUpdateInput.mk (Some v)
                (SessionResultUpdateInput.status update_data)
          | None => update_data
          end in
        let update_data :=
          match SessionResultUpdate.status body with
          | Some v =>
              SessionResultUpdateInput.mk
                (SessionResultUpdateInput.tier update_data)
                (Some (ResultStatus_str v))
          | None => update_data
          end in
        result <-
          (if SessionResultUpdateInput.truthy update_data
           then db_sessionresult_update result_id update_data
           else ret (Some found)) ;;
        match result with
        | None => raise (HTTPException 404 "Result not found for session")
        | Some result => SessionResultRead_of result
        end
  end.

(** ** The routes: validation of the body, then the handler *)

(** A member of a JSON object: left out, [null], or a value. *)
Inductive member (A : Type) : Type :=
| Omitted
| Null
| Given (a : A).
Arguments Omitted {A}.
Arguments Null {A}.
Arguments Given {A} a.

(** The body of [PUT /sessions/{session_id}/search] as it arrives. *)
Module SearchBody.
Record t : Type := mk {
  query : string;
  issues : list string;
  max_results : Z
}.
End SearchBody.

(** The body of [PATCH /sessions/{session_id}/results/{result_id}] as it
    arrives. *)
Module ResultBody.
Record t : Type := mk {
  tier : member Tier;
  status : member string
}.
End ResultBody.

Definition SessionSearchCreate_validate (b : SearchBody.t) : option SessionSearchCreate.t :=
  match list_validate IssueType_validate (SearchBody.issues b) with
  | Some issues =>
      Some (SessionSearchCreate.mk (SearchBody.query b) issues (SearchBody.max_results b))
  | None => None
  end.

(** [Optional[T] = None]: a member left out takes the default [None],
    [null] is the value [None], anything else is validated as [T]. *)
Definition Optional_validate {A B : Type} (v : A -> option B) (m : member A)
  : option (option B) :=
  match m with
  | Omitted => Some None
  | Null => Some None
  | Given a =>
      match v a with
      | Some b => Some (Some b)
      | None => None
      end
  end.

Definition SessionResultUpdate_validate (b : ResultBody.t) : option SessionResultUpdate.t :=
  match Optional_validate (@Some Tier) (ResultBody.tier b),
        Optional_validate ResultStatus_validate (ResultBody.status b) with
  | Some tier, Some status => Some (SessionResultUpdate.mk tier status)
  | _, _ => None
  end.

Definition PUT_session_search (session_id : Z) (b : SearchBody.t)
  : Handler SessionSearchRead.t :=
  body <- or_raise RequestValidationError (SessionSearchCreate_validate b) ;;
  upsert_session_search session_id body.

Definition PATCH_session_result (session_id result_id : Z) (b : ResultBody.t)
  : Handler SessionResultRead.t :=
  body <- or_raise RequestValidationError (SessionResultUpdate_validate b) ;;
  update_session_result session_id result_id body.



(** ** The worker and the histories of the store

    The worker is not part of this repository; the two writes it makes are
    modelled so that the states the handlers meet can be described. *)

(** Modelled from the spec: the external worker records its progress in the
    worker-owned columns of a Search (count of checked websites, cursor,
    completion time) and in its status. *)
Definition worker_progress (search_id : Z) (status : string) (checked : Z)
  (cursor : option string) (completed : option Z) (db : Db) : Db :=
  mkDb (session_rows db)
    (map (fun r =>
            if SessionSearch.id r =? search_id
            then SessionSearch.mk (SessionSearch.id r) (SessionSearch.sessionId r)
                   (SessionSearch.query r) (SessionSearch.issuesFilter r)
                   (SessionSearch.maxResultsRequested r)
                   status checked cursor completed
            else r)
         (sessionsearch_rows db))
    (sessionresult_rows db) (session_seq db) (sessionsearch_seq db).

(** Modelled from the spec: the external worker inserts the Result rows;
    [session_id] is a foreign key, so the store refuses a row whose session
    does not exist. *)
Definition worker_result (row : SessionResult.t) (db : Db) : Db :=
  if existsb (fun s => Session.id s =? SessionResult.sessionId row) (session_rows db)
  then mkDb (session_rows db) (sessionsearch_rows db)
         (sessionresult_rows db ++ [row]) (session_seq db) (sessionsearch_seq db)
  else db.

Inductive event : Type :=
| POST_sessions (now : Z)
| GET_sessions (offset limit : nat)
| PUT_search (session_id : Z) (b : SearchBody.t)
| GET_search (session_id : Z)
| GET_results (session_id : Z) (offset limit : nat)
| PATCH_result (session_id result_id : Z) (b : ResultBody.t)
| Worker_progress (search_id : Z) (status : string) (checked : Z)
    (cursor : option string) (completed : option Z)
| Worker_result (row : SessionResult.t).

(** The store after an event, and the id of the session the event created. *)
Definition step (e : event) (db : Db) : Db * option Z :=
  match e with
  | POST_sessions now =>
      match create_session now db with
      | (db', inr r) => (db', Some (SessionRead.id r))
      | (db', inl _) => (db', None)
      end
  | GET_sessions offset limit => (fst (list_sessions offset limit db), None)
  | PUT_search session_id b => (fst (PUT_session_search session_id b db), None)
  | GET_search session_id => (fst (get_session_search session_id db), None)
  | GET_results session_id offset limit =>
      (fst (list_session_results session_id offset limit db), None)
  | PATCH_result session_id result_id b =>
      (fst (PATCH_session_result session_id result_id b db), None)
  | Worker_progress search_id status checked cursor completed =>
      (worker_progress search_id status checked cursor completed db, None)
  | Worker_result row => (worker_result row db, None)
  end.

(** The store after a history, with the ids of the sessions created on the
    way, the last one first. *)
Fixpoint run (es : list event) (db : Db) (created : list Z) : Db * list Z :=
  match es with
  | [] => (db, created)
  | e :: es' =>
      match step e db with
      | (db', Some id) => run es' db' (id :: created)
      | (db', None) => run es' db' created
      end
  end.

(** The Search rows of one session. *)
Definition searches_of (session_id : Z) (rows : list SessionSearch.t) : list SessionSearch.t :=
  filter (fun r => SessionSearch.sessionId r =? session_id) rows.

(** [session_id] is unique in the Search table. *)
Definition one_search_per_session (db : Db) : Prop :=
  NoDup (map SessionSearch.sessionId (sessionsearch_rows db)).

(** [session_id] of a Result is a foreign key. *)
Definition results_reference_sessions (db : Db) : Prop :=
  forall r, In r (sessionresult_rows db) ->
            In (SessionResult.sessionId r) (map Session.id (session_rows db)).

(** [session_id] of a Search is a foreign key. *)
Definition searches_reference_sessions (db : Db) : Prop :=
  forall r, In r (sessionsearch_rows db) ->
            In (SessionSearch.sessionId r) (map Session.id (session_rows db)).

(** What the store keeps true along every history: the ids of the
    sessions, in the table or handed out, are below the next id of the
    sequence, and the constraints of the schema hold. *)
Record consistent (db : Db) (created : list Z) : Prop := mk_consistent {
  session_ids_issued :
    forall s, In s (session_rows db) -> Session.id s < session_seq db;
  created_ids_issued :
    forall id, In id created -> id < session_seq db;
  searches_unique : one_search_per_session db;
  searches_fk : searches_reference_sessions db;
  results_fk : results_reference_sessions db
}.

(** A handler that leaves the store as it finds it. *)
Definition read_only {A : Type} (m : Handler A) : Prop :=
  forall db, fst (m db) = db.

(** The store after [db.sessionresult.update]. *)
Definition with_result_update (db : Db) (result_id : Z)
  (data : SessionResultUpdateInput.t) : Db :=
  fst (db_sessionresult_update result_id data db).

(** The store after [db.sessionsearch.update]. *)
Definition with_search_update (db : Db) (id : Z)
  (data : SessionSearchUpdateInput.t) : Db :=
  fst (db_sessionsearch_update id data db).

(** The columns [upsert_session_search] writes. *)
Definition upsert_data (body : SessionSearchCreate.t) : SessionSearchUpdateInput.t :=
  SessionSearchUpdateInput.mk (SessionSearchCreate.query body)
    (json_dumps (map IssueType_str (SessionSearchCreate.issues body)))
    (SessionSearchCreate.max_results body).

(** A Search row presented with a given list of tags. *)
Definition present_search (s : SessionSearch.t) (issues : list IssueType)
  : SessionSearchRead.t :=
  SessionSearchRead.mk (SessionSearch.sessionId s) (SessionSearch.query s) issues
    (SessionSearch.maxResultsRequested s) (SessionSearch.checkedWebsitesCount s)
    (SessionSearch.lastSearchCursor s) (is_not_None (SessionSearch.completedAt s)).

(** The row of a Result, by its id. *)
Definition result_row (db : Db) (result_id : Z) : option SessionResult.t :=
  find (fun r => SessionResult.id r =? result_id) (sessionresult_rows db).

(** The row of a Session, by its id. *)
Definition session_row (db : Db) (session_id : Z) : option Session.t :=
  find (fun s => Session.id s =? session_id) (session_rows db).

(** The columns of a Search this API never writes after the creation. *)
Definition worker_owned (r : SessionSearch.t) : Z * option string * option Z :=
  (SessionSearch.checkedWebsitesCount r, SessionSearch.lastSearchCursor r,
   SessionSearch.completedAt r).

(** Two versions of a Search row that differ at most in [query],
    [issuesFilter] and [maxResultsRequested]. *)
Definition same_but_config (r r' : SessionSearch.t) : Prop :=
  SessionSearch.id r' = SessionSearch.id r /\
  SessionSearch.sessionId r' = SessionSearch.sessionId r /\
  SessionSearch.status r' = SessionSearch.status r /\
  worker_owned r' = worker_owned r.

(** Two versions of a Result row that differ at most in [tier] and
    [status]. *)
Definition same_but_tier_status (r r' : SessionResult.t) : Prop :=
  SessionResult.id r' = SessionResult.id r /\
  SessionResult.createdAt r' = SessionResult.createdAt r /\
  SessionResult.sessionId r' = SessionResult.sessionId r /\
  SessionResult.url r' = SessionResult.url r /\
  SessionResult.domain r' = SessionResult.domain r /\
  SessionResult.pageCount r' = SessionResult.pageCount r /\
  SessionResult.issuesDetected r' = SessionResult.issuesDetected r /\
  SessionResult.lighthouseJson r' = SessionResult.lighthouseJson r /\
  SessionResult.contactEmail r' = SessionResult.contactEmail r.

(** ** Sample stores *)

Definition plumbers : SearchBody.t := SearchBody.mk "plumbers" ["missing-title"] 20.

Definition db_one_session : Db := fst (create_session 100 empty_db).

Definition sample_result : SessionResult.t :=
  SessionResult.mk 7 300 2 "https://example.org/" "example.org" 12 2.5%float
    (Some (json_dumps ["missing-h1"; "missing-h1"])) None None "pending".

(** Two sessions; the first one is configured and its search is complete,
    the second one has one result. *)
Definition db_sample : Db :=
  fst (run [POST_sessions 100; POST_sessions 200; PUT_search 1 plumbers;
            Worker_progress 1 "completed" 5 (Some "page-5") (Some 250);
            Worker_result sample_result] empty_db []).

(** ** Notions for the listings, the presentations and the ids *)

(** A list whose keys never increase: newest first for a creation time. *)
Fixpoint descending_by {A : Type} (key : A -> Z) (l : list A) : Prop :=
  match l with
  | [] => True
  | x :: l' => (forall y, In y l' -> key y <= key x) /\ descending_by key l'
  end.

(** The tags a stored [issuesDetected] text stands for, when it stands for
    some: the value of
    [json.loads(result.issuesDetected) if result.issuesDetected else []]
    as the response model takes it. *)
Definition stored_issues (text : option string) : option (list IssueType) :=
  match text with
  | None => Some []
  | Some EmptyString => Some []
  | Some text =>
      match json_loads text with
      | Some raw => list_validate IssueType_validate raw
      | None => None
      end
  end.

(** The presentation of a Result row, when the row has one. *)
Definition present_result (r : SessionResult.t) : option SessionResultRead.t :=
  match stored_issues (SessionResult.issuesDetected r),
        ResultStatus_validate (SessionResult.status r) with
  | Some issues, Some status =>
      Some (SessionResultRead.mk (SessionResult.id r) (SessionResult.createdAt r)
              (SessionResult.sessionId r) (SessionResult.url r)
              (SessionResult.domain r) (SessionResult.pageCount r)
              (SessionResult.tier r) issues (SessionResult.lighthouseJson r)
              (SessionResult.contactEmail r) status)
  | _, _ => None
  end.

(** The presentations of the rows of a list, when each row has one. *)
Fixpoint present_all (l : list SessionResult.t) : option (list SessionResultRead.t) :=
  match l with
  | [] => Some []
  | r :: l' =>
      match present_result r, present_all l' with
      | Some v, Some out => Some (v :: out)
      | _, _ => None
      end
  end.

(** The rows of the Result table the listing of a session goes through. *)
Definition results_page (db : Db) (session_id : Z) (offset limit : nat)
  : list SessionResult.t :=
  page offset limit
    (order_desc SessionResult.createdAt
       (filter (fun r => SessionResult.sessionId r =? session_id)
          (sessionresult_rows db))).

(** The ids of the Search rows are distinct and were issued by the
    sequence of the table. *)
Definition search_ids_issued (db : Db) : Prop :=
  NoDup (map SessionSearch.id (sessionsearch_rows db)) /\
  forall r, In r (sessionsearch_rows db) -> SessionSearch.id r < sessionsearch_seq db.

(** A store with a result whose status is none of the three values. *)
Definition odd_result : SessionResult.t :=
  SessionResult.mk 8 350 2 "https://example.net/" "example.net" 3 1.0%float
    None None (Some "owner@example.net") "failed".

Definition db_odd_status : Db := worker_result odd_result db_sample.

(** The events that are requests to the API. *)
Definition is_request (e : event) : bool :=
  match e with
  | Worker_progress _ _ _ _ _ => false
  | Worker_result _ => false
  | _ => true
  end.

(** * Properties *)

(** ** The scenario of the specification, and the codec on small inputs *)

Example json_dumps_two :
  json_dumps ["missing-h1"; "seo-issues"] =
  String "[" (String dquote ("missing-h1" ++ String dquote (", " ++
    String dquote ("seo-issues" ++ String dquote "]")))).
Proof. reflexivity. Qed.

Example json_loads_two :
  json_loads (json_dumps ["missing-h1"; "seo-issues"; "missing-h1"]) =
  Some ["missing-h1"; "seo-issues"; "missing-h1"].
Proof. reflexivity. Qed.

Example json_loads_empty : json_loads (json_dumps []) = Some [].
Proof. reflexivity. Qed.

Example json_loads_escapes :
  let s := String dquote (String backslash (String (ascii_of_N 7) (String (ascii_of_N 233) "a/"))) in
  json_loads (json_dumps [s; EmptyString]) = Some [s; EmptyString].
Proof. reflexivity. Qed.

Example json_loads_bad : json_loads "[1, 2]" = None.
Proof. reflexivity. Qed.

Example scenario_create :
  snd (create_session 100 empty_db) = inr (SessionRead.mk 1 100 "Untitled session" false false).
Proof. reflexivity. Qed.

Example scenario_put :
  snd (PUT_session_search 1 plumbers (fst (create_session 100 empty_db))) =
  inr (SessionSearchRead.mk 1 "plumbers" [MissingTitle] 20 0 None false).
Proof. reflexivity. Qed.

Example scenario_get :
  let db := fst (PUT_session_search 1 plumbers (fst (create_session 100 empty_db))) in
  get_session_search 1 db =
  (db, inr (SessionSearchRead.mk 1 "plumbers" [MissingTitle] 20 0 None false)).
Proof. reflexivity. Qed.

Example scenario_results :
  let db := fst (PUT_session_search 1 plumbers (fst (create_session 100 empty_db))) in
  list_session_results 1 0 50 db = (db, inr []).
Proof. reflexivity. Qed.

Example scenario_patch :
  let db := fst (PUT_session_search 1 plumbers (fst (create_session 100 empty_db))) in
  PATCH_session_result 1 999 (ResultBody.mk Omitted (Given "completed")) db =
  (db, inl (HTTPException 404 "Result not found for session")).
Proof. reflexivity. Qed.

(** ** The codec: [json_loads] undoes [json_dumps] *)

Lemma append_assoc (a b c : string) : ((a ++ b) ++ c = a ++ (b ++ c))%string.
Proof. induction a as [|x a IH]; simpl; [reflexivity | now rewrite IH]. Qed.

(** Reading the escaped form of one character inside a string literal
    adds that character. *)
Lemma jrun_escape_char (c : ascii) (acc : list ascii) (items : list string) (rest : string) :
  jrun (JStr acc) items (escape_char c ++ rest) = jrun (JStr (c :: acc)) items rest.
Proof.
  destruct c as [[|] [|] [|] [|] [|] [|] [|] [|]]; reflexivity.
Qed.

Lemma jrun_escape_string (s : string) :
  forall acc items rest,
    jrun (JStr acc) items (escape_string s ++ rest) =
    jrun (JStr (push_chars s acc)) items rest.
Proof.
  induction s as [|c s IH]; intros acc items rest; simpl.
  - reflexivity.
  - rewrite append_assoc, jrun_escape_char. apply IH.
Qed.

Lemma string_of_rev_push (s : string) :
  forall acc tl, string_of_rev (push_chars s acc) tl = string_of_rev acc (s ++ tl).
Proof.
  induction s as [|c s IH]; intros acc tl; simpl.
  - reflexivity.
  - rewrite IH. reflexivity.
Qed.

Lemma append_empty (s : string) : (s ++ EmptyString)%string = s.
Proof. induction s as [|c s IH]; simpl; [reflexivity | now rewrite IH]. Qed.

(** Reading one encoded string, from a state that expects one. *)
Lemma jrun_encode_str (st : jstate) (s : string) (items : list string) (rest : string) :
  st = JOpen \/ st = JNext ->
  jrun st items (encode_str s ++ rest) = jrun JAfter (s :: items) rest.
Proof.
  intros Hst. unfold encode_str.
  assert (Hq : jstep st items dquote = (JStr [], items))
    by (destruct Hst; subst st; reflexivity).
  cbn [append jrun]. rewrite Hq.
  rewrite append_assoc, jrun_escape_string. cbn [append jrun].
  assert (Hc : forall acc, jstep (JStr acc) items dquote =
                           (JAfter, string_of_rev acc EmptyString :: items))
    by reflexivity.
  rewrite Hc, string_of_rev_push. cbn [string_of_rev]. rewrite append_empty.
  reflexivity.
Qed.

Lemma jrun_encode_items (l : list string) :
  forall st items,
    l <> [] -> st = JOpen \/ st = JNext ->
    jrun st items (encode_items l ++ "]") = (JEnd, (rev l ++ items)%list).
Proof.
  induction l as [|s l IH]; intros st items Hne Hst; [congruence|].
  destruct l as [|s' l].
  - cbn [encode_items]. rewrite jrun_encode_str by exact Hst. reflexivity.
  - change (encode_items (s :: s' :: l))
      with (encode_str s ++ ", " ++ encode_items (s' :: l))%string.
    rewrite append_assoc, jrun_encode_str by exact Hst.
    rewrite append_assoc. cbn [append jrun].
    change (jstep JAfter (s :: items) ",") with (JNext, s :: items).
    cbn iota. cbn [jrun append].
    change (jstep JNext (s :: items) " ") with (JNext, s :: items).
    cbn iota.
    rewrite IH by (try discriminate; now right).
    cbn [rev]. rewrite <- !app_assoc. reflexivity.
Qed.

Lemma json_loads_dumps (l : list string) : json_loads (json_dumps l) = Some l.
Proof.
  unfold json_loads, json_dumps. cbn [append jrun].
  change (jstep JStart [] "[") with (JOpen, @nil string). cbn iota.
  destruct l as [|s l].
  - reflexivity.
  - rewrite jrun_encode_items by (try discriminate; now left).
    rewrite app_nil_r, rev_involutive. reflexivity.
Qed.

(** ** Literals *)

Lemma Literal_validate_sound {A : Type} (str : A -> string) (args : list A) (s : string) (a : A) :
  Literal_validate str args s = Some a -> In a args /\ str a = s.
Proof.
  induction args as [|x args IH]; simpl; [discriminate|].
  destruct (String.eqb_spec s (str x)) as [->|Hne].
  - intros [= ->]. auto.
  - intros H. destruct (IH H). auto.
Qed.

Lemma Literal_validate_None {A : Type} (str : A -> string) (args : list A) (s : string) :
  ~ In s (map str args) -> Literal_validate str args s = None.
Proof.
  induction args as [|x args IH]; simpl; [reflexivity|].
  intros Hn. destruct (String.eqb_spec s (str x)) as [->|Hne].
  - exfalso. apply Hn. now left.
  - apply IH. intros Hin. apply Hn. now right.
Qed.

Lemma IssueType_validate_str (t : IssueType) : IssueType_validate (IssueType_str t) = Some t.
Proof. destruct t; reflexivity. Qed.

Lemma ResultStatus_validate_str (t : ResultStatus) :
  ResultStatus_validate (ResultStatus_str t) = Some t.
Proof. destruct t; reflexivity. Qed.

Lemma list_validate_map_str (tags : list IssueType) :
  list_validate IssueType_validate (map IssueType_str tags) = Some tags.
Proof.
  induction tags as [|t tags IH]; simpl; [reflexivity|].
  now rewrite IssueType_validate_str, IH.
Qed.

Lemma list_validate_sound (raw : list string) :
  forall tags,
    list_validate IssueType_validate raw = Some tags -> map IssueType_str tags = raw.
Proof.
  induction raw as [|s raw IH]; simpl; intros tags H.
  - injection H as <-. reflexivity.
  - destruct (IssueType_validate s) as [t|] eqn:Ht; [|discriminate].
    destruct (list_validate IssueType_validate raw) as [r|]; [|discriminate].
    injection H as <-. simpl.
    apply Literal_validate_sound in Ht. destruct Ht as [_ ->].
    now rewrite (IH r eq_refl).
Qed.

Lemma list_validate_None {A : Type} (v : string -> option A) (raw : list string) (s : string) :
  In s raw -> v s = None -> list_validate v raw = None.
Proof.
  induction raw as [|x raw IH]; simpl; [tauto|].
  intros [->|Hin] Hv.
  - now rewrite Hv.
  - rewrite (IH Hin Hv). now destruct (v x).
Qed.

(** What the handlers read back from a tag list they stored. *)
Lemma load_issues_dumps (tags : list IssueType) (db : Db) :
  load_issues (json_dumps (map IssueType_str tags)) db = (db, inr tags).
Proof.
  unfold load_issues, bind, or_raise.
  rewrite json_loads_dumps. cbn. rewrite list_validate_map_str. reflexivity.
Qed.

(** ** Lookups *)

Lemma find_None_iff {A : Type} (f : A -> bool) (l : list A) :
  find f l = None <-> forall x, In x l -> f x = false.
Proof.
  split.
  - intros H x Hx. exact (find_none f l H x Hx).
  - induction l as [|a l IH]; simpl; intros H; [reflexivity|].
    rewrite (H a (or_introl eq_refl)). apply IH. intros x Hx. apply H. now right.
Qed.

Lemma search_of_session_None (db : Db) (session_id : Z) :
  search_of_session db session_id = None <->
  forall r, In r (sessionsearch_rows db) -> SessionSearch.sessionId r <> session_id.
Proof.
  unfold search_of_session. rewrite find_None_iff. split; intros H r Hr.
  - specialize (H r Hr). lia.
  - specialize (H r Hr). lia.
Qed.

Lemma search_of_session_Some (db : Db) (session_id : Z) (s : SessionSearch.t) :
  search_of_session db session_id = Some s ->
  In s (sessionsearch_rows db) /\ SessionSearch.sessionId s = session_id.
Proof.
  unfold search_of_session. intros H. apply find_some in H. destruct H as [Hin Heq].
  split; [exact Hin | lia].
Qed.

(** ** Reading the Search of a session *)

(** C8: for every session that has no Search row, [get_session_search]
    fails with the 404 error "Search not configured for session", leaves
    the store as it is, and so returns no Search object of any kind. *)
Theorem get_session_search_not_configured (db : Db) (session_id : Z) :
  (forall r, In r (sessionsearch_rows db) -> SessionSearch.sessionId r <> session_id) ->
  get_session_search session_id db =
    (db, inl (HTTPException 404 "Search not configured for session")) /\
  forall search, snd (get_session_search session_id db) <> inr search.
Proof.
  intros Hno. apply search_of_session_None in Hno.
  assert (E : get_session_search session_id db =
              (db, inl (HTTPException 404 "Search not configured for session"))).
  { unfold get_session_search, bind, db_sessionsearch_find_unique.
    rewrite Hno. reflexivity. }
  split; [exact E|]. intros search. rewrite E. discriminate.
Qed.

Lemma get_session_search_not_configured_witness :
  (forall r, In r (sessionsearch_rows db_one_session) -> SessionSearch.sessionId r <> 1) /\
  get_session_search 1 db_one_session =
    (db_one_session, inl (HTTPException 404 "Search not configured for session")).
Proof.
  assert (H : forall r, In r (sessionsearch_rows db_one_session) ->
                        SessionSearch.sessionId r <> 1)
    by (simpl; intros r []).
  split; [exact H|].
  exact (proj1 (get_session_search_not_configured db_one_session 1 H)).
Defined.

(** ** Patching a result *)

(** C5: when the result with the given id does not exist, or exists with a
    [session_id] other than the one of the path, [update_session_result]
    fails with the 404 error "Result not found for session" and the store
    is left as it was. *)
Theorem update_session_result_not_found (db : Db) (session_id result_id : Z)
  (body : SessionResultUpdate.t) :
  result_row db result_id = None \/
  (exists found, result_row db result_id = Some found /\
                 SessionResult.sessionId found <> session_id) ->
  update_session_result session_id result_id body db =
    (db, inl (HTTPException 404 "Result not found for session")).
Proof.
  unfold update_session_result, bind, db_sessionresult_find_unique, result_row.
  intros [Hnone | [found [Hfound Hneq]]].
  - rewrite Hnone. reflexivity.
  - rewrite Hfound.
    destruct (Z.eqb_spec (SessionResult.sessionId found) session_id) as [E|E];
      [contradiction | reflexivity].
Qed.

(** ** Validation of the issue tags *)

(** C4: an upsert request whose [issues] hold a tag outside the closed set
    fails as a request-validation error, and the store is left as it was:
    no Search row is created or modified. *)
Theorem PUT_session_search_unknown_tag (db : Db) (session_id : Z) (b : SearchBody.t)
  (tag : string) :
  In tag (SearchBody.issues b) ->
  ~ In tag ["seo-issues"; "missing-title"; "missing-meta-description";
            "missing-h1"; "slow-performance"] ->
  PUT_session_search session_id b db = (db, inl RequestValidationError).
Proof.
  intros Hin Hout.
  unfold PUT_session_search, bind, SessionSearchCreate_validate.
  rewrite (list_validate_None IssueType_validate _ tag Hin).
  - reflexivity.
  - apply Literal_validate_None. exact Hout.
Qed.

Lemma update_session_result_not_found_witness :
  (result_row db_sample 7 = None \/
   exists found, result_row db_sample 7 = Some found /\
                 SessionResult.sessionId found <> 1) /\
  update_session_result 1 7 (SessionResultUpdate.mk None (Some Error)) db_sample =
    (db_sample, inl (HTTPException 404 "Result not found for session")).
Proof.
  assert (H : result_row db_sample 7 = None \/
              exists found, result_row db_sample 7 = Some found /\
                            SessionResult.sessionId found <> 1).
  { right. exists sample_result. split; [reflexivity | discriminate]. }
  split; [exact H|].
  exact (update_session_result_not_found db_sample 1 7 _ H).
Defined.

Lemma PUT_session_search_unknown_tag_witness :
  let b := SearchBody.mk "plumbers" ["missing-title"; "broken-links"] 20 in
  In "broken-links" (SearchBody.issues b) /\
  PUT_session_search 1 b db_sample = (db_sample, inl RequestValidationError).
Proof.
  intros b.
  assert (Hin : In "broken-links" (SearchBody.issues b)) by (simpl; auto).
  split; [exact Hin|].
  apply (PUT_session_search_unknown_tag db_sample 1 b "broken-links" Hin).
  simpl. intros H. repeat (destruct H as [H|H]; [discriminate H|]). exact H.
Defined.

(** ** Ordering and paging *)

Lemma insert_desc_In {A : Type} (key : A -> Z) (x y : A) (l : list A) :
  In y (insert_desc key x l) <-> y = x \/ In y l.
Proof.
  induction l as [|a l IH]; simpl.
  - intuition congruence.
  - destruct (key a <=? key x); simpl; [intuition congruence|].
    rewrite IH. intuition congruence.
Qed.

Lemma order_desc_In {A : Type} (key : A -> Z) (y : A) (l : list A) :
  In y (order_desc key l) <-> In y l.
Proof.
  induction l as [|a l IH]; simpl; [tauto|].
  rewrite insert_desc_In, IH. intuition congruence.
Qed.

Lemma insert_desc_length {A : Type} (key : A -> Z) (x : A) (l : list A) :
  List.length (insert_desc key x l) = S (List.length l).
Proof.
  induction l as [|a l IH]; simpl; [reflexivity|].
  destruct (key a <=? key x); simpl; [reflexivity | now rewrite IH].
Qed.

Lemma order_desc_length {A : Type} (key : A -> Z) (l : list A) :
  List.length (order_desc key l) = List.length l.
Proof.
  induction l as [|a l IH]; simpl; [reflexivity|].
  now rewrite insert_desc_length, IH.
Qed.

Lemma page_In {A : Type} (skip take : nat) (l : list A) (x : A) :
  In x (page skip take l) -> In x l.
Proof.
  unfold page. intros H.
  assert (Hs : In x (skipn skip l)).
  { rewrite <- (firstn_skipn take (skipn skip l)). apply in_or_app. now left. }
  rewrite <- (firstn_skipn skip l). apply in_or_app. now right.
Qed.

Lemma page_beyond {A : Type} (skip take : nat) (l : list A) :
  (List.length l <= skip)%nat -> page skip take l = [].
Proof.
  intros H. unfold page. rewrite skipn_all2 by exact H. apply firstn_nil.
Qed.

Lemma page_nil {A : Type} (skip take : nat) : page skip take (@nil A) = [].
Proof. apply page_beyond. simpl. lia. Qed.

Lemma filter_nil_iff {A : Type} (f : A -> bool) (l : list A) :
  (forall x, In x l -> f x = false) -> filter f l = [].
Proof.
  induction l as [|a l IH]; simpl; intros H; [reflexivity|].
  rewrite (H a (or_introl eq_refl)). apply IH. intros x Hx. apply H. now right.
Qed.

(** ** Listing the results of a session *)

(** C7: [list_session_results] does not look the session up.  When the
    session does not exist (the results referring to existing sessions
    only), when no result belongs to it, or when [offset] is at or beyond
    the number of its results, the answer is the empty sequence, not an
    error, and the store is left as it was. *)
Theorem list_session_results_empty (db : Db) (session_id : Z) (offset limit : nat) :
  (results_reference_sessions db /\ session_row db session_id = None) \/
  (forall r, In r (sessionresult_rows db) -> SessionResult.sessionId r <> session_id) \/
  (List.length (filter (fun r => (SessionResult.sessionId r =? session_id)%Z)
             (sessionresult_rows db)) <= offset)%nat ->
  list_session_results session_id offset limit db = (db, inr []).
Proof.
  intros H.
  assert (Hpage : page offset limit
            (order_desc SessionResult.createdAt
               (filter (fun r => SessionResult.sessionId r =? session_id)
                  (sessionresult_rows db))) = []).
  { destruct H as [[Hfk Hnone] | [Hno | Hoff]].
    - rewrite filter_nil_iff; [apply page_nil|].
      intros r Hr. apply Z.eqb_neq. intros E.
      specialize (Hfk r Hr). rewrite E in Hfk.
      apply in_map_iff in Hfk. destruct Hfk as [s [Hs Hin]].
      unfold session_row in Hnone.
      pose proof (find_none _ _ Hnone s Hin) as Hf. cbn beta in Hf. lia.
    - rewrite filter_nil_iff; [apply page_nil|].
      intros r Hr. apply Z.eqb_neq. exact (Hno r Hr).
    - apply page_beyond. rewrite order_desc_length. exact Hoff. }
  unfold list_session_results, bind, db_sessionresult_find_many.
  rewrite Hpage. reflexivity.
Qed.

Lemma list_session_results_empty_witness :
  (results_reference_sessions db_sample /\ session_row db_sample 3 = None) /\
  list_session_results 3 0 50 db_sample = (db_sample, inr []).
Proof.
  assert (H : results_reference_sessions db_sample /\ session_row db_sample 3 = None).
  { split; [|reflexivity].
    intros r Hr. simpl in Hr. destruct Hr as [<- | []]. simpl. auto. }
  split; [exact H|].
  exact (list_session_results_empty db_sample 3 0 50 (or_introl H)).
Defined.

(** ** Listing the sessions *)

Lemma NoDup_map_eq {A B : Type} (f : A -> B) (l : list A) (a b : A) :
  NoDup (map f l) -> In a l -> In b l -> f a = f b -> a = b.
Proof.
  induction l as [|x l IH]; simpl; [tauto|].
  intros Hnd Ha Hb E. inversion Hnd as [|y ys Hnotin Hnd']; subst.
  destruct Ha as [->|Ha], Hb as [->|Hb].
  - reflexivity.
  - exfalso. apply Hnotin. rewrite E. now apply in_map.
  - exfalso. apply Hnotin. rewrite <- E. now apply in_map.
  - now apply IH.
Qed.

(** C3: every session returned by [list_sessions] is a row of the Session
    table; its [is_configured] is true exactly when a Search row exists for
    it, and its [is_completed] is true exactly when such a row exists with
    [completedAt] set.  The Search table holds at most one row per session. *)
Theorem list_sessions_flags (db : Db) (offset limit : nat) :
  one_search_per_session db ->
  exists sessions,
    list_sessions offset limit db = (db, inr sessions) /\
    forall r, In r sessions ->
      In (SessionRead.id r) (map Session.id (session_rows db)) /\
      (SessionRead.is_configured r = true <->
       exists s, In s (sessionsearch_rows db) /\
                 SessionSearch.sessionId s = SessionRead.id r) /\
      (SessionRead.is_completed r = true <->
       exists s, In s (sessionsearch_rows db) /\
                 SessionSearch.sessionId s = SessionRead.id r /\
                 SessionSearch.completedAt s <> None).
Proof.
  intros Huniq. eexists. split; [reflexivity|].
  intros r Hr. rewrite map_map in Hr. apply in_map_iff in Hr.
  destruct Hr as [session [<- Hin]].
  apply page_In, order_desc_In in Hin.
  unfold SessionRead_of. cbn [SessionRead.id SessionRead.is_configured SessionRead.is_completed].
  split; [now apply in_map|].
  destruct (search_of_session db (Session.id session)) as [found|] eqn:Hs.
  - apply search_of_session_Some in Hs. destruct Hs as [Hfound Hsid].
    split.
    + split; [|reflexivity]. intros _. now exists found.
    + split.
      * intros Hc. exists found. repeat split; try assumption.
        destruct (SessionSearch.completedAt found); [discriminate | discriminate Hc].
      * intros [s [Hs [Hsid' Hc]]].
        assert (s = found) as ->.
        { apply (NoDup_map_eq SessionSearch.sessionId (sessionsearch_rows db));
            try assumption. congruence. }
        destruct (SessionSearch.completedAt found); [reflexivity | congruence].
  - pose proof (proj1 (search_of_session_None db _) Hs) as Hno.
    split; (split; [discriminate|]).
    + intros [s [Hs' Hsid]]. exfalso. exact (Hno s Hs' Hsid).
    + intros [s [Hs' [Hsid _]]]. exfalso. exact (Hno s Hs' Hsid).
Qed.

Lemma list_sessions_flags_witness :
  one_search_per_session db_sample /\
  exists sessions,
    list_sessions 0 50 db_sample = (db_sample, inr sessions) /\
    forall r, In r sessions ->
      In (SessionRead.id r) (map Session.id (session_rows db_sample)) /\
      (SessionRead.is_configured r = true <->
       exists s, In s (sessionsearch_rows db_sample) /\
                 SessionSearch.sessionId s = SessionRead.id r) /\
      (SessionRead.is_completed r = true <->
       exists s, In s (sessionsearch_rows db_sample) /\
                 SessionSearch.sessionId s = SessionRead.id r /\
                 SessionSearch.completedAt s <> None).
Proof.
  assert (H : one_search_per_session db_sample).
  { unfold one_search_per_session. simpl. repeat constructor. intros []. }
  split; [exact H|].
  exact (list_sessions_flags db_sample 0 50 H).
Defined.

Example list_sessions_sample :
  snd (list_sessions 0 50 db_sample) =
  inr [SessionRead.mk 2 200 "Untitled session" false false;
       SessionRead.mk 1 100 "Untitled session" true true].
Proof. reflexivity. Qed.

(** ** Updates by id *)

Lemma find_map_set {A : Type} (p : A -> bool) (g : A -> A) (l : list A) :
  (forall a, p (g a) = p a) ->
  find p (map (fun r => if p r then g r else r) l) = option_map g (find p l).
Proof.
  intros Hp. induction l as [|a l IH]; simpl; [reflexivity|].
  destruct (p a) eqn:Ha.
  - rewrite Hp, Ha. reflexivity.
  - rewrite Ha. exact IH.
Qed.

Lemma map_set_length {A : Type} (p : A -> bool) (g : A -> A) (l : list A) :
  List.length (map (fun r => if p r then g r else r) l) = List.length l.
Proof. apply length_map. Qed.

Lemma db_sessionresult_update_found (db : Db) (result_id : Z)
  (data : SessionResultUpdateInput.t) (found : SessionResult.t) :
  result_row db result_id = Some found ->
  db_sessionresult_update result_id data db =
    (with_result_update db result_id data, inr (Some (SessionResult_set data found))) /\
  result_row (with_result_update db result_id data) result_id =
    Some (SessionResult_set data found).
Proof.
  intros Hf.
  assert (E : find (fun r => SessionResult.id r =? result_id)
                (map (fun r => if SessionResult.id r =? result_id
                               then SessionResult_set data r else r)
                   (sessionresult_rows db)) = Some (SessionResult_set data found)).
  { rewrite (find_map_set (fun r => SessionResult.id r =? result_id)
               (SessionResult_set data)) by reflexivity.
    unfold result_row in Hf. rewrite Hf. reflexivity. }
  unfold with_result_update, db_sessionresult_update, result_row. cbn [fst].
  cbn [sessionresult_rows]. rewrite E. split; reflexivity.
Qed.

Lemma read_only_ret {A : Type} (a : A) : read_only (ret a).
Proof. intros db. reflexivity. Qed.

Lemma read_only_raise {A : Type} (e : Failure) : read_only (@raise A e).
Proof. intros db. reflexivity. Qed.

Lemma read_only_or_raise {A : Type} (e : Failure) (o : option A) :
  read_only (or_raise e o).
Proof. destruct o; [apply read_only_ret | apply read_only_raise]. Qed.

Lemma read_only_bind {A B : Type} (m : Handler A) (k : A -> Handler B) :
  read_only m -> (forall a, read_only (k a)) -> read_only (bind m k).
Proof.
  intros Hm Hk db. unfold bind. specialize (Hm db).
  destruct (m db) as [db' [e|a]]; cbn [fst] in Hm; subst db'; [reflexivity|].
  apply Hk.
Qed.

Lemma read_only_load_issues (text : string) : read_only (load_issues text).
Proof.
  unfold load_issues. apply read_only_bind; [apply read_only_or_raise|].
  intros raw. apply read_only_or_raise.
Qed.

Lemma read_only_SessionSearchRead_of (s : SessionSearch.t) :
  read_only (SessionSearchRead_of s).
Proof.
  unfold SessionSearchRead_of. apply read_only_bind; [apply read_only_load_issues|].
  intros issues. apply read_only_ret.
Qed.

Lemma read_only_SessionResultRead_of (r : SessionResult.t) :
  read_only (SessionResultRead_of r).
Proof.
  unfold SessionResultRead_of. apply read_only_bind.
  - unfold load_issues_detected.
    destruct (SessionResult.issuesDetected r) as [[|c text]|];
      [apply read_only_ret | apply read_only_load_issues | apply read_only_ret].
  - intros issues. apply read_only_bind; [apply read_only_or_raise|].
    intros status. apply read_only_ret.
Qed.

Lemma SessionResultRead_of_fst (r : SessionResult.t) (db : Db) :
  fst (SessionResultRead_of r db) = db.
Proof. apply read_only_SessionResultRead_of. Qed.

(** What [update_session_result] does on a result of the session: the
    keys of [update_data] are the members of the body that are not [None];
    with a key the row is written and the row as written is presented,
    without one the row that was found is presented. *)
Lemma update_session_result_found (db : Db) (session_id result_id : Z)
  (body : SessionResultUpdate.t) (found : SessionResult.t) :
  result_row db result_id = Some found ->
  SessionResult.sessionId found = session_id ->
  let data := SessionResultUpdateInput.mk (SessionResultUpdate.tier body)
                (option_map ResultStatus_str (SessionResultUpdate.status body)) in
  update_session_result session_id result_id body db =
    if SessionResultUpdateInput.truthy data
    then SessionResultRead_of (SessionResult_set data found)
           (with_result_update db result_id data)
    else SessionResultRead_of found db.
Proof.
  intros Hf Hs data.
  unfold update_session_result, bind at 1, db_sessionresult_find_unique.
  fold (result_row db result_id). rewrite Hf.
  rewrite (proj2 (Z.eqb_eq _ _) Hs). cbn [negb].
  destruct body as [[tier|] [status|]]; subst data;
    cbn [SessionResultUpdate.tier SessionResultUpdate.status option_map
         SessionResultUpdateInput.tier SessionResultUpdateInput.status
         SessionResultUpdateInput.empty SessionResultUpdateInput.truthy];
    unfold bind;
    try (rewrite (proj1 (db_sessionresult_update_found db result_id _ found Hf));
         reflexivity).
  reflexivity.
Qed.

(** C2: for a result whose [session_id] is the one of the path, a body
    with [status] alone writes the status and leaves the tier and every
    other column of the row; a body with [tier] alone writes the tier and
    leaves the status and every other column; a body with neither leaves
    the store as it was and answers with the row that was found.  In each
    case the answer is the presentation of the row as it is stored after
    the call. *)
Theorem update_session_result_partial (db : Db) (session_id result_id : Z)
  (found : SessionResult.t) :
  result_row db result_id = Some found ->
  SessionResult.sessionId found = session_id ->
  (forall status,
     let out := update_session_result session_id result_id
                  (SessionResultUpdate.mk None (Some status)) db in
     exists row',
       result_row (fst out) result_id = Some row' /\
       SessionResult.tier row' = SessionResult.tier found /\
       SessionResult.status row' = ResultStatus_str status /\
       same_but_tier_status found row' /\
       out = SessionResultRead_of row' (fst out)) /\
  (forall tier,
     let out := update_session_result session_id result_id
                  (SessionResultUpdate.mk (Some tier) None) db in
     exists row',
       result_row (fst out) result_id = Some row' /\
       SessionResult.tier row' = tier /\
       SessionResult.status row' = SessionResult.status found /\
       same_but_tier_status found row' /\
       out = SessionResultRead_of row' (fst out)) /\
  (let out := update_session_result session_id result_id
                (SessionResultUpdate.mk None None) db in
   fst out = db /\ out = SessionResultRead_of found db).
Proof.
  intros Hf Hs. repeat split.
  - intros status out. subst out.
    rewrite (update_session_result_found db session_id result_id _ found Hf Hs).
    cbn [SessionResultUpdate.tier SessionResultUpdate.status option_map
         SessionResultUpdateInput.truthy SessionResultUpdateInput.tier
         SessionResultUpdateInput.status].
    rewrite SessionResultRead_of_fst.
    eexists. split; [exact (proj2 (db_sessionresult_update_found db result_id _ found Hf))|].
    repeat split.
  - intros tier out. subst out.
    rewrite (update_session_result_found db session_id result_id _ found Hf Hs).
    cbn [SessionResultUpdate.tier SessionResultUpdate.status option_map
         SessionResultUpdateInput.truthy SessionResultUpdateInput.tier
         SessionResultUpdateInput.status].
    rewrite SessionResultRead_of_fst.
    eexists. split; [exact (proj2 (db_sessionresult_update_found db result_id _ found Hf))|].
    repeat split.
  - rewrite (update_session_result_found db session_id result_id _ found Hf Hs).
    cbn. apply SessionResultRead_of_fst.
  - rewrite (update_session_result_found db session_id result_id _ found Hf Hs).
    reflexivity.
Qed.

Lemma update_session_result_partial_witness :
  result_row db_sample 7 = Some sample_result /\
  SessionResult.sessionId sample_result = 2 /\
  (exists row',
     result_row (fst (update_session_result 2 7
                        (SessionResultUpdate.mk None (Some Error)) db_sample)) 7 = Some row' /\
     SessionResult.tier row' = 2.5%float /\
     SessionResult.status row' = "error") /\
  fst (update_session_result 2 7 (SessionResultUpdate.mk None None) db_sample) = db_sample.
Proof.
  destruct (update_session_result_partial db_sample 2 7 sample_result eq_refl eq_refl)
    as [Hstatus [_ [Hnone _]]].
  split; [reflexivity|]. split; [reflexivity|]. split; [|exact Hnone].
  destruct (Hstatus Error) as [row' [H1 [H2 [H3 _]]]].
  exists row'. split; [exact H1|]. split; [exact H2 | exact H3].
Defined.

Example update_session_result_sample :
  snd (update_session_result 2 7 (SessionResultUpdate.mk (Some 3.5%float) None) db_sample) =
  inr (SessionResultRead.mk 7 300 2 "https://example.org/" "example.org" 12 3.5%float
         [MissingH1; MissingH1] None None Pending).
Proof. reflexivity. Qed.

(** X10: the answer of a patch on a result of the session whose row can
    be presented: it is the presentation of the row before the patch with
    the tier and the status replaced by the members the body gives, and
    with every other member as it was. *)
Lemma update_session_result_returns (db : Db) (session_id result_id : Z)
  (body : SessionResultUpdate.t) (found : SessionResult.t) (v : SessionResultRead.t) :
  result_row db result_id = Some found ->
  SessionResult.sessionId found = session_id ->
  snd (SessionResultRead_of found db) = inr v ->
  snd (update_session_result session_id result_id body db) =
  inr (SessionResultRead.mk (SessionResultRead.id v) (SessionResultRead.created_at v)
         (SessionResultRead.session_id v) (SessionResultRead.url v)
         (SessionResultRead.domain v) (SessionResultRead.page_count v)
         (match SessionResultUpdate.tier body with
          | Some t => t
          | None => SessionResultRead.tier v
          end)
         (SessionResultRead.issues_detected v)
         (SessionResultRead.lighthouse_json v) (SessionResultRead.contact_email v)
         (match SessionResultUpdate.status body with
          | Some s => s
          | None => SessionResultRead.status v
          end)).
Proof.
  intros Hf Hs Hv.
  rewrite (update_session_result_found db session_id result_id body found Hf Hs).
  revert Hv. unfold SessionResultRead_of, bind.
  destruct body as [tier status].
  cbn [SessionResultUpdate.tier SessionResultUpdate.status].
  set (data := SessionResultUpdateInput.mk tier (option_map ResultStatus_str status)).
  assert (Hload : forall db1 db2,
            snd (load_issues_detected (SessionResult.issuesDetected found) db1) =
            snd (load_issues_detected (SessionResult.issuesDetected found) db2)).
  { intros db1 db2. unfold load_issues_detected, load_issues, bind, or_raise.
    destruct (SessionResult.issuesDetected found) as [[|c text]|]; try reflexivity.
    destruct (json_loads (String c text)) as [raw|]; [|reflexivity].
    cbn [ret]. destruct (list_validate IssueType_validate raw); reflexivity. }
  destruct (load_issues_detected (SessionResult.issuesDetected found) db)
    as [db1 [e|issues]] eqn:Hl; [discriminate|].
  destruct (ResultStatus_validate (SessionResult.status found)) as [st|] eqn:Hst;
    [|discriminate].
  cbn [or_raise ret snd]. intros [= <-].
  cbn [SessionResultRead.id SessionResultRead.created_at SessionResultRead.session_id
       SessionResultRead.url SessionResultRead.domain SessionResultRead.page_count
       SessionResultRead.tier SessionResultRead.issues_detected
       SessionResultRead.lighthouse_json SessionResultRead.contact_email
       SessionResultRead.status].
  assert (Hl' : forall db2,
            exists db3, load_issues_detected (SessionResult.issuesDetected found) db2 =
                        (db3, inr issues)).
  { intros db2. specialize (Hload db2 db). rewrite Hl in Hload. cbn [snd] in Hload.
    destruct (load_issues_detected (SessionResult.issuesDetected found) db2) as [db3 r].
    cbn [snd] in Hload. subst r. now exists db3. }
  destruct (SessionResultUpdateInput.truthy data) eqn:Htr.
  - change (SessionResult.issuesDetected (SessionResult_set data found))
      with (SessionResult.issuesDetected found).
    destruct (Hl' (with_result_update db result_id data)) as [db3 ->].
    destruct tier as [t|], status as [s|]; subst data;
      cbn [SessionResult_set SessionResult.status SessionResultUpdateInput.status
           SessionResultUpdateInput.tier option_map SessionResult.tier
           SessionResult.id SessionResult.createdAt SessionResult.sessionId
           SessionResult.url SessionResult.domain SessionResult.pageCount
           SessionResult.lighthouseJson SessionResult.contactEmail];
      try rewrite ResultStatus_validate_str; try rewrite Hst;
      reflexivity.
  - destruct tier as [t|], status as [s|]; try discriminate Htr.
    reflexivity.
Qed.

(** C10: in a patch body, [null] for [tier] or for [status] is the same
    as leaving the member out: the route answers and writes the same.  So
    a [null] tier leaves the stored tier of the result, and a [null] status
    leaves its stored status: neither column is cleared. *)
Theorem PATCH_null_as_omitted (db : Db) (session_id result_id : Z)
  (found : SessionResult.t) :
  result_row db result_id = Some found ->
  SessionResult.sessionId found = session_id ->
  (forall status,
     PATCH_session_result session_id result_id (ResultBody.mk Null status) db =
     PATCH_session_result session_id result_id (ResultBody.mk Omitted status) db) /\
  (forall tier,
     PATCH_session_result session_id result_id (ResultBody.mk tier Null) db =
     PATCH_session_result session_id result_id (ResultBody.mk tier Omitted) db) /\
  PATCH_session_result session_id result_id (ResultBody.mk Null Null) db =
    update_session_result session_id result_id (SessionResultUpdate.mk None None) db /\
  (forall status,
     exists row',
       result_row (fst (PATCH_session_result session_id result_id
                          (ResultBody.mk Null status) db)) result_id = Some row' /\
       SessionResult.tier row' = SessionResult.tier found) /\
  (forall tier,
     exists row',
       result_row (fst (PATCH_session_result session_id result_id
                          (ResultBody.mk tier Null) db)) result_id = Some row' /\
       SessionResult.status row' = SessionResult.status found).
Proof.
  intros Hf Hs.
  split; [reflexivity|]. split; [reflexivity|]. split; [reflexivity|].
  assert (Hbody : forall body,
            exists row',
              result_row (fst (update_session_result session_id result_id body db))
                result_id = Some row' /\
              (SessionResultUpdate.tier body = None ->
               SessionResult.tier row' = SessionResult.tier found) /\
              (SessionResultUpdate.status body = None ->
               SessionResult.status row' = SessionResult.status found)).
  { intros body.
    rewrite (update_session_result_found db session_id result_id body found Hf Hs).
    destruct (SessionResultUpdateInput.truthy _).
    - rewrite SessionResultRead_of_fst. eexists.
      split; [exact (proj2 (db_sessionresult_update_found db result_id _ found Hf))|].
      split; intros ->; reflexivity.
    - rewrite SessionResultRead_of_fst. exists found. auto. }
  split.
  - intros status. unfold PATCH_session_result, bind, SessionResultUpdate_validate.
    cbn [ResultBody.tier ResultBody.status Optional_validate].
    destruct (Optional_validate ResultStatus_validate status) as [st|].
    + cbn [or_raise ret].
      destruct (Hbody (SessionResultUpdate.mk None st)) as [row' [H1 [H2 _]]].
      exists row'. split; [exact H1 | now apply H2].
    + exists found. split; [exact Hf | reflexivity].
  - intros tier. unfold PATCH_session_result, bind, SessionResultUpdate_validate.
    cbn [ResultBody.tier ResultBody.status].
    destruct (Optional_validate (@Some Tier) tier) as [t|].
    + cbn [Optional_validate or_raise ret].
      destruct (Hbody (SessionResultUpdate.mk t None)) as [row' [H1 [_ H2]]].
      exists row'. split; [exact H1 | now apply H2].
    + exists found. split; [exact Hf | reflexivity].
Qed.

Lemma PATCH_null_as_omitted_witness :
  result_row db_sample 7 = Some sample_result /\
  SessionResult.sessionId sample_result = 2 /\
  PATCH_session_result 2 7 (ResultBody.mk Null (Given "error")) db_sample =
  PATCH_session_result 2 7 (ResultBody.mk Omitted (Given "error")) db_sample /\
  exists row',
    result_row (fst (PATCH_session_result 2 7 (ResultBody.mk Null (Given "error"))
                       db_sample)) 7 = Some row' /\
    SessionResult.tier row' = 2.5%float.
Proof.
  destruct (PATCH_null_as_omitted db_sample 2 7 sample_result eq_refl eq_refl)
    as [Heq [_ [_ [Htier _]]]].
  split; [reflexivity|]. split; [reflexivity|].
  split; [exact (Heq (Given "error"))|].
  exact (Htier (Given "error")).
Defined.

Example PATCH_null_sample :
  PATCH_session_result 2 7 (ResultBody.mk Null Null) db_sample =
  (db_sample,
   inr (SessionResultRead.mk 7 300 2 "https://example.org/" "example.org" 12 2.5%float
          [MissingH1; MissingH1] None None Pending)).
Proof. reflexivity. Qed.

(** ** Upserting the Search of a session *)

Lemma find_exists {A : Type} (p : A -> bool) (l : list A) (x : A) :
  In x l -> p x = true -> exists y, find p l = Some y.
Proof.
  intros Hin Hp. destruct (find p l) as [y|] eqn:E; [now exists y|].
  rewrite (find_none p l E x Hin) in Hp. discriminate.
Qed.

Lemma find_map_preserved {A : Type} (p : A -> bool) (h : A -> A) (l : list A) :
  (forall a, p (h a) = p a) -> find p (map h l) = option_map h (find p l).
Proof.
  intros Hp. induction l as [|a l IH]; simpl; [reflexivity|].
  rewrite Hp. destruct (p a); [reflexivity | exact IH].
Qed.

Lemma filter_map_preserved {A : Type} (p : A -> bool) (h : A -> A) (l : list A) :
  (forall a, p (h a) = p a) -> filter p (map h l) = map h (filter p l).
Proof.
  intros Hp. induction l as [|a l IH]; simpl; [reflexivity|].
  rewrite Hp. destruct (p a); simpl; now rewrite IH.
Qed.

Lemma find_app_None {A : Type} (p : A -> bool) (l : list A) (x : A) :
  find p l = None -> find p (l ++ [x])%list = (if p x then Some x else None).
Proof.
  induction l as [|a l IH]; simpl; [reflexivity|].
  destruct (p a); [discriminate | exact IH].
Qed.

Lemma existsb_find {A : Type} (p : A -> bool) (l : list A) :
  existsb p l = is_not_None (find p l).
Proof.
  induction l as [|a l IH]; simpl; [reflexivity|].
  destruct (p a); [reflexivity | exact IH].
Qed.

Lemma db_session_find_unique_row (db : Db) (session_id : Z) :
  db_session_find_unique session_id db =
  (db, inr (option_map (fun s => (s, search_of_session db session_id))
              (session_row db session_id))).
Proof.
  unfold db_session_find_unique, session_row.
  destruct (find (fun s => Session.id s =? session_id) (session_rows db)) as [s|] eqn:E;
    [|reflexivity].
  apply find_some in E. destruct E as [_ E]. apply Z.eqb_eq in E.
  cbn [option_map]. rewrite E. reflexivity.
Qed.

Lemma SessionSearchRead_of_dumps (s : SessionSearch.t) (tags : list IssueType) (db : Db) :
  SessionSearch.issuesFilter s = json_dumps (map IssueType_str tags) ->
  SessionSearchRead_of s db = (db, inr (present_search s tags)).
Proof.
  intros E. unfold SessionSearchRead_of, bind. rewrite E, load_issues_dumps.
  reflexivity.
Qed.

(** The two paths of [upsert_session_search] on an existing session. *)
Lemma upsert_session_search_paths (db : Db) (session_id : Z)
  (body : SessionSearchCreate.t) (session : Session.t) :
  session_row db session_id = Some session ->
  match search_of_session db session_id with
  | Some found =>
      exists first,
        find (fun r => SessionSearch.id r =? SessionSearch.id found)
          (sessionsearch_rows db) = Some first /\
        upsert_session_search session_id body db =
          (with_search_update db (SessionSearch.id found) (upsert_data body),
           inr (present_search (SessionSearch_set (upsert_data body) first)
                  (SessionSearchCreate.issues body)))
  | None =>
      let row := SessionSearch.mk (sessionsearch_seq db) session_id
                   (SessionSearchCreate.query body)
                   (json_dumps (map IssueType_str (SessionSearchCreate.issues body)))
                   (SessionSearchCreate.max_results body) "pending" 0 None None in
      upsert_session_search session_id body db =
        (mkDb (session_rows db) (sessionsearch_rows db ++ [row])
           (sessionresult_rows db) (session_seq db) (sessionsearch_seq db + 1),
         inr (present_search row (SessionSearchCreate.issues body)))
  end.
Proof.
  intros Hsession.
  assert (Hlookup : forall k : option (Session.t * option SessionSearch.t)
                               -> Handler SessionSearchRead.t,
            bind (db_session_find_unique session_id) k db =
            k (Some (session, search_of_session db session_id)) db).
  { intros k. unfold bind. rewrite db_session_find_unique_row, Hsession. reflexivity. }
  destruct (search_of_session db session_id) as [found|] eqn:Hsearch.
  - pose proof (search_of_session_Some db session_id found Hsearch) as [Hin _].
    destruct (find_exists (fun r => SessionSearch.id r =? SessionSearch.id found)
                (sessionsearch_rows db) found Hin (Z.eqb_refl _)) as [first Hfirst].
    exists first. split; [exact Hfirst|].
    unfold upsert_session_search. rewrite Hlookup.
    unfold bind, db_sessionsearch_update.
    fold (upsert_data body).
    rewrite (find_map_set (fun r => SessionSearch.id r =? SessionSearch.id found)
               (SessionSearch_set (upsert_data body))) by reflexivity.
    rewrite Hfirst. cbn [option_map or_raise ret].
    rewrite (SessionSearchRead_of_dumps _ (SessionSearchCreate.issues body))
      by reflexivity.
    reflexivity.
  - cbv zeta. unfold upsert_session_search. rewrite Hlookup.
    unfold bind, db_sessionsearch_create.
    cbn [SessionSearchCreateInput.session_connect_id SessionSearchCreateInput.query
         SessionSearchCreateInput.issuesFilter SessionSearchCreateInput.status
         SessionSearchCreateInput.maxResultsRequested].
    rewrite !existsb_find. fold (session_row db session_id).
    fold (search_of_session db session_id). rewrite Hsession, Hsearch.
    cbn [is_not_None negb andb].
    rewrite (SessionSearchRead_of_dumps _ (SessionSearchCreate.issues body))
      by reflexivity.
    reflexivity.
Qed.

(** C1: on an existing session, [upsert_session_search] answers with the
    Search it leaves for the session, which holds the query, the issue tags
    and the result cap of the body; the Session and the Result tables are
    not touched.  When the session already has a Search, no row is added:
    the table keeps its length and the session its number of rows; every
    row keeps its id, session, status, [checkedWebsitesCount],
    [lastSearchCursor] and [completedAt], and every row with another id is
    the same row.  When it has none, one row is added, whose worker-owned
    columns are the creation defaults (0, no cursor, no completion). *)
Theorem upsert_session_search_frame (db : Db) (session_id : Z)
  (body : SessionSearchCreate.t) (session : Session.t) :
  session_row db session_id = Some session ->
  exists db' answer row',
    upsert_session_search session_id body db = (db', inr answer) /\
    search_of_session db' session_id = Some row' /\
    SessionSearch.query row' = SessionSearchCreate.query body /\
    SessionSearch.issuesFilter row' =
      json_dumps (map IssueType_str (SessionSearchCreate.issues body)) /\
    SessionSearch.maxResultsRequested row' = SessionSearchCreate.max_results body /\
    session_rows db' = session_rows db /\
    sessionresult_rows db' = sessionresult_rows db /\
    (forall found,
       search_of_session db session_id = Some found ->
       List.length (sessionsearch_rows db') = List.length (sessionsearch_rows db) /\
       List.length (searches_of session_id (sessionsearch_rows db')) =
         List.length (searches_of session_id (sessionsearch_rows db)) /\
       Forall2 (fun r r' =>
                  same_but_config r r' /\
                  (SessionSearch.id r <> SessionSearch.id found -> r' = r))
         (sessionsearch_rows db) (sessionsearch_rows db') /\
       same_but_config found row') /\
    (search_of_session db session_id = None ->
       sessionsearch_rows db' = (sessionsearch_rows db ++ [row'])%list /\
       worker_owned row' = (0, None, None)).
Proof.
  intros Hsession.
  pose proof (upsert_session_search_paths db session_id body session Hsession) as Hp.
  destruct (search_of_session db session_id) as [found|] eqn:Hsearch.
  - destruct Hp as [first [Hfirst Hrun]].
    pose proof (search_of_session_Some db session_id found Hsearch) as [Hin Hsid].
    set (h := fun r => if SessionSearch.id r =? SessionSearch.id found
                       then SessionSearch_set (upsert_data body) r else r).
    assert (Hrows : sessionsearch_rows
                      (with_search_update db (SessionSearch.id found) (upsert_data body)) =
                    map h (sessionsearch_rows db)) by reflexivity.
    assert (Hh : forall a, (SessionSearch.sessionId (h a) =? session_id) =
                           (SessionSearch.sessionId a =? session_id)).
    { intros a. unfold h. now destruct (SessionSearch.id a =? SessionSearch.id found). }
    eexists _, _, (SessionSearch_set (upsert_data body) found).
    split; [exact Hrun|].
    split.
    { unfold search_of_session. rewrite Hrows.
      rewrite (find_map_preserved (fun r => SessionSearch.sessionId r =? session_id) h)
        by exact Hh.
      unfold search_of_session in Hsearch. rewrite Hsearch. cbn [option_map].
      unfold h. now rewrite Z.eqb_refl. }
    repeat (split; [reflexivity|]).
    split; [|intros [=]].
    intros found' [= <-].
    split; [rewrite Hrows; apply length_map|].
    split.
    { unfold searches_of. rewrite Hrows.
      rewrite (filter_map_preserved _ h) by exact Hh. apply length_map. }
    split.
    { rewrite Hrows. clear. induction (sessionsearch_rows db) as [|a l IH]; simpl;
        constructor; try exact IH.
      unfold h. destruct (Z.eqb_spec (SessionSearch.id a) (SessionSearch.id found)).
      - split; [repeat split | contradiction].
      - split; [repeat split | reflexivity]. }
    repeat split.
  - cbn zeta in Hp. eexists _, _, _.
    split; [exact Hp|].
    split.
    { unfold search_of_session. cbn [sessionsearch_rows].
      unfold search_of_session in Hsearch.
      rewrite (find_app_None _ _ _ Hsearch). cbn [SessionSearch.sessionId].
      now rewrite Z.eqb_refl. }
    repeat (split; [reflexivity|]).
    split; [intros found [=]|].
    intros _. split; reflexivity.
Qed.

Lemma upsert_session_search_frame_witness :
  session_row db_sample 1 = Some (Session.mk 1 100 None) /\
  exists db' answer row',
    upsert_session_search 1 (SessionSearchCreate.mk "roofers" [SlowPerformance] 5)
      db_sample = (db', inr answer) /\
    search_of_session db' 1 = Some row' /\
    SessionSearch.query row' = "roofers" /\
    List.length (sessionsearch_rows db') = 1%nat /\
    worker_owned row' = (5, Some "page-5", Some 250).
Proof.
  split; [reflexivity|].
  destruct (upsert_session_search_frame db_sample 1
              (SessionSearchCreate.mk "roofers" [SlowPerformance] 5)
              (Session.mk 1 100 None) eq_refl)
    as [db' [answer [row' [Hrun [Hrow [Hq [_ [_ [_ [_ [Hold _]]]]]]]]]]].
  destruct (Hold _ eq_refl) as [Hlen [_ [_ [_ [_ [_ Hw]]]]]].
  exists db', answer, row'.
  split; [exact Hrun|]. split; [exact Hrow|]. split; [exact Hq|].
  split; [exact Hlen | exact Hw].
Defined.

Example upsert_twice_sample :
  let db1 := fst (PUT_session_search 2 plumbers db_sample) in
  let db2 := fst (PUT_session_search 2
                    (SearchBody.mk "roofers" ["missing-h1"; "seo-issues"; "missing-h1"] 5)
                    db1) in
  searches_of 2 (sessionsearch_rows db2) =
  [SessionSearch.mk 2 2 "roofers"
     (json_dumps ["missing-h1"; "seo-issues"; "missing-h1"]) 5 "pending" 0 None None].
Proof. reflexivity. Qed.

(** ** The issue tags written and read back *)

(** C6: for every sequence of issue tags the upsert accepts, on an
    existing session, the upsert succeeds and its answer carries exactly
    the sequence of the body, and so does the answer of the read that
    follows, which leaves the store as the upsert left it: same tags, same
    multiplicity, same order. *)
Theorem issues_round_trip (db : Db) (session_id : Z) (b : SearchBody.t)
  (session : Session.t) (tags : list IssueType) :
  session_row db session_id = Some session ->
  list_validate IssueType_validate (SearchBody.issues b) = Some tags ->
  exists db' written read,
    PUT_session_search session_id b db = (db', inr written) /\
    get_session_search session_id db' = (db', inr read) /\
    map IssueType_str (SessionSearchRead.issues written) = SearchBody.issues b /\
    map IssueType_str (SessionSearchRead.issues read) = SearchBody.issues b.
Proof.
  intros Hsession Hvalid.
  pose proof (list_validate_sound _ _ Hvalid) as Hstr.
  set (body := SessionSearchCreate.mk (SearchBody.query b) tags (SearchBody.max_results b)).
  assert (Hput : PUT_session_search session_id b db =
                 upsert_session_search session_id body db).
  { unfold PUT_session_search, bind, SessionSearchCreate_validate.
    rewrite Hvalid. reflexivity. }
  assert (Hget : forall db' row,
            search_of_session db' session_id = Some row ->
            SessionSearch.issuesFilter row = json_dumps (map IssueType_str tags) ->
            get_session_search session_id db' = (db', inr (present_search row tags))).
  { intros db' row Hrow Hfilter.
    unfold get_session_search, bind, db_sessionsearch_find_unique.
    rewrite Hrow. now apply SessionSearchRead_of_dumps. }
  pose proof (upsert_session_search_paths db session_id body session Hsession) as Hp.
  destruct (search_of_session db session_id) as [found|] eqn:Hsearch.
  - destruct Hp as [first [_ Hrun]].
    eexists _, _, (present_search (SessionSearch_set (upsert_data body) found) tags).
    rewrite Hput. split; [exact Hrun|].
    split; [|split; exact Hstr].
    apply (Hget _ (SessionSearch_set (upsert_data body) found)); [|reflexivity].
    unfold search_of_session, with_search_update, db_sessionsearch_update.
    cbn [fst sessionsearch_rows].
    rewrite (find_map_preserved (fun r => SessionSearch.sessionId r =? session_id)).
    + unfold search_of_session in Hsearch. rewrite Hsearch. cbn [option_map].
      now rewrite Z.eqb_refl.
    + intros a. now destruct (SessionSearch.id a =? SessionSearch.id found).
  - cbn zeta in Hp.
    eexists _, _, (present_search _ tags). rewrite Hput. split; [exact Hp|].
    split; [|split; exact Hstr].
    apply Hget.
    + unfold search_of_session. cbn [sessionsearch_rows].
      unfold search_of_session in Hsearch.
      rewrite (find_app_None _ _ _ Hsearch). cbn [SessionSearch.sessionId].
      rewrite Z.eqb_refl. reflexivity.
    + reflexivity.
Qed.

Lemma issues_round_trip_witness :
  let b := SearchBody.mk "roofers" ["missing-h1"; "seo-issues"; "missing-h1"] 5 in
  session_row db_sample 2 = Some (Session.mk 2 200 None) /\
  list_validate IssueType_validate (SearchBody.issues b) =
    Some [MissingH1; SeoIssues; MissingH1] /\
  exists db' written read,
    PUT_session_search 2 b db_sample = (db', inr written) /\
    get_session_search 2 db' = (db', inr read) /\
    map IssueType_str (SessionSearchRead.issues written) =
      ["missing-h1"; "seo-issues"; "missing-h1"] /\
    map IssueType_str (SessionSearchRead.issues read) =
      ["missing-h1"; "seo-issues"; "missing-h1"].
Proof.
  intros b. split; [reflexivity|]. split; [reflexivity|].
  exact (issues_round_trip db_sample 2 b (Session.mk 2 200 None)
           [MissingH1; SeoIssues; MissingH1] eq_refl eq_refl).
Defined.

(** ** What each route writes *)

Lemma read_only_for_each {A B : Type} (f : A -> Handler B) (l : list A) :
  (forall a, read_only (f a)) -> read_only (for_each f l).
Proof.
  intros Hf. induction l as [|a l IH]; simpl; [apply read_only_ret|].
  apply read_only_bind; [apply Hf|]. intros b.
  apply read_only_bind; [exact IH|]. intros out. apply read_only_ret.
Qed.

Lemma read_only_list_sessions (offset limit : nat) : read_only (list_sessions offset limit).
Proof.
  unfold list_sessions. apply read_only_bind; [intros db; reflexivity|].
  intros rows. apply read_only_ret.
Qed.

Lemma read_only_get_session_search (session_id : Z) :
  read_only (get_session_search session_id).
Proof.
  unfold get_session_search. apply read_only_bind; [intros db; reflexivity|].
  intros [s|]; [apply read_only_SessionSearchRead_of | apply read_only_raise].
Qed.

Lemma read_only_list_session_results (session_id : Z) (offset limit : nat) :
  read_only (list_session_results session_id offset limit).
Proof.
  unfold list_session_results. apply read_only_bind; [intros db; reflexivity|].
  intros rows. apply read_only_for_each. apply read_only_SessionResultRead_of.
Qed.

(** [PUT .../search] writes the Search table only: it leaves it, adds one
    row for a session that exists and has none, or rewrites the rows with
    one id without changing their session. *)
Lemma PUT_session_search_writes (session_id : Z) (b : SearchBody.t) (db : Db) :
  let db' := fst (PUT_session_search session_id b db) in
  session_rows db' = session_rows db /\
  session_seq db' = session_seq db /\
  sessionresult_rows db' = sessionresult_rows db /\
  (sessionsearch_rows db' = sessionsearch_rows db \/
   (exists row,
      sessionsearch_rows db' = (sessionsearch_rows db ++ [row])%list /\
      SessionSearch.sessionId row = session_id /\
      search_of_session db session_id = None /\
      session_row db session_id <> None) \/
   (exists id data,
      sessionsearch_rows db' =
      map (fun r => if SessionSearch.id r =? id then SessionSearch_set data r else r)
        (sessionsearch_rows db))).
Proof.
  unfold PUT_session_search, bind.
  destruct (SessionSearchCreate_validate b) as [body|]; cbn [or_raise ret raise];
    [|cbn; auto].
  destruct (session_row db session_id) as [session|] eqn:Hsession.
  - pose proof (upsert_session_search_paths db session_id body session Hsession) as Hp.
    destruct (search_of_session db session_id) as [found|] eqn:Hsearch.
    + destruct Hp as [first [_ ->]]. cbn [fst].
      repeat (split; [reflexivity|]). right. right.
      exists (SessionSearch.id found), (upsert_data body). reflexivity.
    + cbn zeta in Hp. rewrite Hp. cbn [fst session_rows session_seq sessionresult_rows
                                        sessionsearch_rows].
      repeat (split; [reflexivity|]). right. left.
      eexists. split; [reflexivity|]. split; [reflexivity|].
      split; [reflexivity | discriminate].
  - unfold upsert_session_search, bind.
    rewrite db_session_find_unique_row, Hsession. cbn. auto.
Qed.

(** [PATCH .../results/...] writes the Result table only: it leaves it or
    rewrites the rows with one id without changing their session. *)
Lemma PATCH_session_result_writes (session_id result_id : Z) (b : ResultBody.t) (db : Db) :
  let db' := fst (PATCH_session_result session_id result_id b db) in
  session_rows db' = session_rows db /\
  session_seq db' = session_seq db /\
  sessionsearch_rows db' = sessionsearch_rows db /\
  (sessionresult_rows db' = sessionresult_rows db \/
   exists data,
     sessionresult_rows db' =
     map (fun r => if SessionResult.id r =? result_id
                   then SessionResult_set data r else r)
       (sessionresult_rows db)).
Proof.
  unfold PATCH_session_result, bind.
  destruct (SessionResultUpdate_validate b) as [body|]; cbn [or_raise ret raise];
    [|cbn; auto].
  destruct (result_row db result_id) as [found|] eqn:Hfound.
  - destruct (Z.eq_dec (SessionResult.sessionId found) session_id) as [Hs|Hs].
    + rewrite (update_session_result_found db session_id result_id body found Hfound Hs).
      destruct (SessionResultUpdateInput.truthy _);
        rewrite SessionResultRead_of_fst; [|auto].
      repeat (split; [reflexivity|]). right. eexists. reflexivity.
    + unfold update_session_result, bind, db_sessionresult_find_unique.
      fold (result_row db result_id). rewrite Hfound.
      rewrite (proj2 (Z.eqb_neq _ _) Hs). cbn. auto.
  - unfold update_session_result, bind, db_sessionresult_find_unique.
    fold (result_row db result_id). rewrite Hfound. cbn. auto.
Qed.

(** ** The constraints along a history *)

Lemma NoDup_snoc {A : Type} (l : list A) (x : A) :
  NoDup l -> ~ In x l -> NoDup (l ++ [x])%list.
Proof.
  intros Hl Hx. induction Hl as [|a l Ha Hl IH]; simpl.
  - constructor; [intros [] | constructor].
  - constructor.
    + intros Hin. apply in_app_or in Hin. destruct Hin as [Hin | [-> | []]].
      * contradiction.
      * apply Hx. now left.
    + apply IH. intros Hin. apply Hx. now right.
Qed.

Lemma consistent_empty : consistent empty_db [].
Proof.
  constructor; try (intros ? []).
  - constructor.
Qed.

Lemma consistent_same_tables (db db' : Db) (created : list Z) :
  consistent db created ->
  session_rows db' = session_rows db ->
  session_seq db' = session_seq db ->
  map SessionSearch.sessionId (sessionsearch_rows db') =
    map SessionSearch.sessionId (sessionsearch_rows db) ->
  map SessionResult.sessionId (sessionresult_rows db') =
    map SessionResult.sessionId (sessionresult_rows db) ->
  consistent db' created.
Proof.
  intros [H1 H2 H3 H4 H5] Hs Hq Hsearch Hres.
  constructor.
  - rewrite Hs, Hq. exact H1.
  - rewrite Hq. exact H2.
  - unfold one_search_per_session. rewrite Hsearch. exact H3.
  - intros r Hr. rewrite Hs.
    apply (in_map SessionSearch.sessionId) in Hr. rewrite Hsearch in Hr.
    apply in_map_iff in Hr. destruct Hr as [r0 [<- Hr0]]. now apply H4.
  - intros r Hr. rewrite Hs.
    apply (in_map SessionResult.sessionId) in Hr. rewrite Hres in Hr.
    apply in_map_iff in Hr. destruct Hr as [r0 [<- Hr0]]. now apply H5.
Qed.

Lemma map_key_preserved {A K : Type} (key : A -> K) (h : A -> A) (l : list A) :
  (forall a, key (h a) = key a) -> map key (map h l) = map key l.
Proof.
  intros Hk. rewrite map_map. apply map_ext. exact Hk.
Qed.

Lemma consistent_step (e : event) (db : Db) (created : list Z) :
  consistent db created ->
  consistent (fst (step e db))
    (match snd (step e db) with
     | Some id => id :: created
     | None => created
     end).
Proof.
  intros Hc. destruct e as [now | offset limit | session_id b | session_id
                           | session_id offset limit | session_id result_id b
                           | search_id status checked cursor completed | row];
    cbn [step fst snd].
  - (* POST /sessions *)
    destruct Hc as [H1 H2 H3 H4 H5].
    unfold create_session, bind, db_session_create. cbn [fst snd ret SessionRead.id Session.id].
    constructor;
      unfold one_search_per_session, searches_reference_sessions,
        results_reference_sessions;
      cbn [session_rows session_seq sessionsearch_rows sessionresult_rows].
    + intros s Hs. apply in_app_or in Hs. destruct Hs as [Hs | [<- | []]].
      * specialize (H1 s Hs). lia.
      * cbn. lia.
    + intros id [<- | Hid]; [lia|]. specialize (H2 id Hid). lia.
    + exact H3.
    + intros r Hr. rewrite map_app. apply in_or_app. left. now apply H4.
    + intros r Hr. rewrite map_app. apply in_or_app. left. now apply H5.
  - rewrite read_only_list_sessions. exact Hc.
  - (* PUT .../search *)
    destruct (PUT_session_search_writes session_id b db)
      as [Hs [Hq [Hr [Hsame | [[row [Happ [Hsid [Hnone Hex]]]] | [id [data Hmap]]]]]]].
    + apply (consistent_same_tables db); try assumption; congruence.
    + destruct Hc as [H1 H2 H3 H4 H5]. constructor.
      * rewrite Hs, Hq. exact H1.
      * rewrite Hq. exact H2.
      * unfold one_search_per_session. rewrite Happ, map_app. cbn [map].
        apply NoDup_snoc; [exact H3|]. rewrite Hsid.
        intros Hin. apply in_map_iff in Hin. destruct Hin as [r [Hr1 Hr2]].
        exact (proj1 (search_of_session_None db session_id) Hnone r Hr2 Hr1).
      * intros r Hin. rewrite Hs. rewrite Happ in Hin. apply in_app_or in Hin.
        destruct Hin as [Hin | [<- | []]]; [now apply H4|].
        rewrite Hsid. unfold session_row in Hex.
        destruct (find (fun s => Session.id s =? session_id) (session_rows db))
          as [s|] eqn:Hf; [|congruence].
        apply find_some in Hf. destruct Hf as [Hin Heq]. apply Z.eqb_eq in Heq.
        rewrite <- Heq. now apply in_map.
      * intros r Hin. rewrite Hs. rewrite Hr in Hin. now apply H5.
    + apply (consistent_same_tables db); try assumption; [|congruence].
      rewrite Hmap. apply map_key_preserved. intros a.
      now destruct (SessionSearch.id a =? id).
  - rewrite read_only_get_session_search. exact Hc.
  - rewrite read_only_list_session_results. exact Hc.
  - (* PATCH .../results/... *)
    destruct (PATCH_session_result_writes session_id result_id b db)
      as [Hs [Hq [Hr [Hsame | [data Hmap]]]]].
    + apply (consistent_same_tables db); try assumption; congruence.
    + apply (consistent_same_tables db); try assumption; [congruence|].
      rewrite Hmap. apply map_key_preserved. intros a.
      now destruct (SessionResult.id a =? result_id).
  - (* the worker's progress *)
    apply (consistent_same_tables db); try assumption; try reflexivity.
    unfold worker_progress. cbn [sessionsearch_rows].
    apply map_key_preserved. intros a. now destruct (SessionSearch.id a =? search_id).
  - (* the worker's results *)
    unfold worker_result.
    destruct (existsb (fun s => Session.id s =? SessionResult.sessionId row)
                (session_rows db)) eqn:Hex; [|exact Hc].
    destruct Hc as [H1 H2 H3 H4 H5]. constructor; try assumption.
    intros r Hin. cbn [sessionresult_rows session_rows] in *.
    apply in_app_or in Hin. destruct Hin as [Hin | [<- | []]]; [now apply H5|].
    apply existsb_exists in Hex. destruct Hex as [s [Hs Heq]].
    apply Z.eqb_eq in Heq. rewrite <- Heq. now apply in_map.
Qed.

Lemma consistent_run (es : list event) :
  forall db created,
    consistent db created ->
    consistent (fst (run es db created)) (snd (run es db created)).
Proof.
  induction es as [|e es IH]; intros db created Hc; [exact Hc|].
  cbn [run]. pose proof (consistent_step e db created Hc) as Hstep.
  destruct (step e db) as [db' [id|]]; cbn [fst snd] in Hstep; now apply IH.
Qed.

(** The constraints hold after every history from the empty store. *)
Lemma consistent_history (es : list event) :
  consistent (fst (run es empty_db [])) (snd (run es empty_db [])).
Proof. apply consistent_run, consistent_empty. Qed.

(** ** Creating a session *)

(** C9: after every history of requests and worker writes from the empty
    store, [create_session] succeeds; the id of the session it returns is
    none of the ids returned by the earlier creations and none of the ids
    in the Session table; both flags are false, and the session has indeed
    no Search. *)
Theorem create_session_fresh (history : list event) (now : Z) :
  let db := fst (run history empty_db []) in
  let created := snd (run history empty_db []) in
  exists db' session,
    create_session now db = (db', inr session) /\
    ~ In (SessionRead.id session) created /\
    ~ In (SessionRead.id session) (map Session.id (session_rows db)) /\
    SessionRead.is_configured session = false /\
    SessionRead.is_completed session = false /\
    search_of_session db' (SessionRead.id session) = None.
Proof.
  intros db created.
  destruct (consistent_history history) as [H1 H2 _ H4 _].
  fold db in H1, H2, H4. fold created in H2.
  eexists _, _. split; [reflexivity|].
  cbn [SessionRead.id SessionRead.is_configured SessionRead.is_completed Session.id].
  assert (Hfresh : ~ In (session_seq db) (map Session.id (session_rows db))).
  { intros Hin. apply in_map_iff in Hin. destruct Hin as [s [Heq Hs]].
    specialize (H1 s Hs). lia. }
  split; [|split; [exact Hfresh|]].
  - intros Hin. specialize (H2 _ Hin). lia.
  - split; [reflexivity|]. split; [reflexivity|].
    apply search_of_session_None. cbn [sessionsearch_rows].
    intros r Hr E. apply Hfresh. rewrite <- E. now apply H4.
Qed.

Example create_session_sample :
  snd (create_session 400 db_sample) =
  inr (SessionRead.mk 3 400 "Untitled session" false false).
Proof. reflexivity. Qed.

(** The ids handed out along a history are pairwise distinct. *)
Lemma created_ids_distinct (es : list event) :
  forall db created,
    consistent db created -> NoDup created -> NoDup (snd (run es db created)).
Proof.
  induction es as [|e es IH]; intros db created Hc Hnd; [exact Hnd|].
  cbn [run]. pose proof (consistent_step e db created Hc) as Hstep.
  destruct (step e db) as [db' [id|]] eqn:He; cbn [fst snd] in Hstep.
  - apply IH; [exact Hstep|]. constructor; [|exact Hnd].
    destruct e; cbn [step] in He; try discriminate He.
    unfold create_session, bind, db_session_create in He. cbn in He.
    injection He as _ <-. intros Hin.
    pose proof (created_ids_issued _ _ Hc _ Hin). lia.
  - now apply IH.
Qed.

(** * Further properties of the handlers *)

(** ** Failures before any write *)

(** X1: on a session id that is in no row of the Session table,
    [upsert_session_search] fails with the 404 error "Session not found"
    and the store is left as it was, whatever the body. *)
Theorem upsert_session_search_unknown_session (db : Db) (session_id : Z)
  (body : SessionSearchCreate.t) :
  session_row db session_id = None ->
  upsert_session_search session_id body db =
    (db, inl (HTTPException 404 "Session not found")).
Proof.
  intros Hnone. unfold upsert_session_search, bind.
  rewrite db_session_find_unique_row, Hnone. reflexivity.
Qed.

Lemma upsert_session_search_unknown_session_witness :
  session_row db_sample 3 = None /\
  upsert_session_search 3 (SessionSearchCreate.mk "roofers" [SeoIssues] 5) db_sample =
    (db_sample, inl (HTTPException 404 "Session not found")).
Proof.
  split; [reflexivity|].
  exact (upsert_session_search_unknown_session db_sample 3 _ eq_refl).
Defined.

(** X2: a patch whose [status] is a string other than "pending",
    "completed" and "error" fails as a request-validation error, whatever
    its [tier] and whether or not the result exists, and the store is left
    as it was. *)
Theorem PATCH_session_result_unknown_status (db : Db) (session_id result_id : Z)
  (tier : member Tier) (status : string) :
  ~ In status ["pending"; "completed"; "error"] ->
  PATCH_session_result session_id result_id (ResultBody.mk tier (Given status)) db =
    (db, inl RequestValidationError).
Proof.
  intros Hout. unfold PATCH_session_result, bind, SessionResultUpdate_validate.
  cbn [ResultBody.tier ResultBody.status Optional_validate].
  unfold ResultStatus_validate.
  rewrite (Literal_validate_None ResultStatus_str ResultStatus_args status Hout).
  destruct tier; reflexivity.
Qed.

Lemma PATCH_session_result_unknown_status_witness :
  ~ In "done" ["pending"; "completed"; "error"] /\
  PATCH_session_result 2 7 (ResultBody.mk (Given 1.5%float) (Given "done")) db_sample =
    (db_sample, inl RequestValidationError).
Proof.
  assert (H : ~ In "done" ["pending"; "completed"; "error"]).
  { simpl. intros H. repeat (destruct H as [H|H]; [discriminate H|]). exact H. }
  split; [exact H|].
  exact (PATCH_session_result_unknown_status db_sample 2 7 _ "done" H).
Defined.

(** ** The reading routes *)

(** X3: the three reading handlers never write: whatever their arguments
    and whether they answer or fail, the store they leave is the store they
    were given. *)
Theorem reading_handlers_leave_store (db : Db) (session_id : Z) (offset limit : nat) :
  fst (list_sessions offset limit db) = db /\
  fst (get_session_search session_id db) = db /\
  fst (list_session_results session_id offset limit db) = db.
Proof.
  split; [apply read_only_list_sessions|].
  split; [apply read_only_get_session_search | apply read_only_list_session_results].
Qed.

(** ** Order and size of a page *)

Lemma firstn_incl {A : Type} (n : nat) (l : list A) (x : A) :
  In x (firstn n l) -> In x l.
Proof.
  intros H. rewrite <- (firstn_skipn n l). apply in_or_app. now left.
Qed.

Lemma skipn_incl {A : Type} (n : nat) (l : list A) (x : A) :
  In x (skipn n l) -> In x l.
Proof.
  intros H. rewrite <- (firstn_skipn n l). apply in_or_app. now right.
Qed.

Lemma descending_by_insert {A : Type} (key : A -> Z) (x : A) (l : list A) :
  descending_by key l -> descending_by key (insert_desc key x l).
Proof.
  induction l as [|a l IH]; intros Hd.
  - simpl. split; [intros y [] | exact I].
  - destruct Hd as [Ha Hl]. cbn [insert_desc].
    destruct (Z.leb_spec (key a) (key x)) as [Hle|Hlt].
    + split; [|split; assumption].
      intros y [<- | Hy]; [exact Hle|]. specialize (Ha y Hy). lia.
    + split; [|now apply IH].
      intros y Hy. apply insert_desc_In in Hy. destruct Hy as [-> | Hy]; [lia|].
      now apply Ha.
Qed.

Lemma descending_by_order_desc {A : Type} (key : A -> Z) (l : list A) :
  descending_by key (order_desc key l).
Proof.
  induction l as [|a l IH]; [exact I|].
  cbn [order_desc fold_right]. apply descending_by_insert. exact IH.
Qed.

Lemma descending_by_firstn {A : Type} (key : A -> Z) (n : nat) (l : list A) :
  descending_by key l -> descending_by key (firstn n l).
Proof.
  revert n. induction l as [|a l IH]; intros [|n] Hd; try exact I.
  destruct Hd as [Ha Hl]. cbn [firstn]. split; [|now apply IH].
  intros y Hy. apply Ha. revert Hy. apply firstn_incl.
Qed.

Lemma descending_by_skipn {A : Type} (key : A -> Z) (n : nat) (l : list A) :
  descending_by key l -> descending_by key (skipn n l).
Proof.
  revert n. induction l as [|a l IH]; intros [|n] Hd; try exact Hd.
  destruct Hd as [_ Hl]. cbn [skipn]. now apply IH.
Qed.

Lemma descending_by_page {A : Type} (key : A -> Z) (skip take : nat) (l : list A) :
  descending_by key (page skip take (order_desc key l)).
Proof.
  unfold page. apply descending_by_firstn, descending_by_skipn,
    descending_by_order_desc.
Qed.

Lemma descending_by_map {A B : Type} (keyA : A -> Z) (keyB : B -> Z) (f : A -> B)
  (l : list A) :
  (forall a, keyB (f a) = keyA a) ->
  descending_by keyA l -> descending_by keyB (map f l).
Proof.
  intros Hk. induction l as [|a l IH]; intros Hd; [exact I|].
  destruct Hd as [Ha Hl]. cbn [map]. split; [|now apply IH].
  intros y Hy. apply in_map_iff in Hy. destruct Hy as [a' [<- Ha']].
  rewrite !Hk. now apply Ha.
Qed.

Lemma page_length {A : Type} (skip take : nat) (l : list A) :
  List.length (page skip take l) = Nat.min take (List.length l - skip).
Proof.
  unfold page. now rewrite length_firstn, length_skipn.
Qed.

Lemma insert_desc_Permutation {A : Type} (key : A -> Z) (x : A) (l : list A) :
  Permutation (insert_desc key x l) (x :: l).
Proof.
  induction l as [|a l IH]; cbn [insert_desc]; [apply Permutation_refl|].
  destruct (key a <=? key x); [apply Permutation_refl|].
  apply Permutation_trans with (a :: x :: l).
  - now apply perm_skip.
  - apply perm_swap.
Qed.

Lemma order_desc_Permutation {A : Type} (key : A -> Z) (l : list A) :
  Permutation (order_desc key l) l.
Proof.
  induction l as [|a l IH]; [apply Permutation_refl|].
  cbn [order_desc fold_right].
  apply Permutation_trans with (a :: order_desc key l).
  - apply insert_desc_Permutation.
  - now apply perm_skip.
Qed.

(** ** The listing of the sessions *)

(** X4: [list_sessions] always answers.  Its answer holds as many sessions
    as the table has beyond [offset], up to [limit] of them; they come
    newest first (no [created_at] is later than the one before it), and
    each one carries the id, the creation time and the name of a row of the
    Session table, "Untitled session" standing for a missing name. *)
Theorem list_sessions_page (db : Db) (offset limit : nat) :
  exists sessions,
    list_sessions offset limit db = (db, inr sessions) /\
    List.length sessions = Nat.min limit (List.length (session_rows db) - offset) /\
    descending_by SessionRead.created_at sessions /\
    forall r, In r sessions ->
      exists s, In s (session_rows db) /\
                SessionRead.id r = Session.id s /\
                SessionRead.created_at r = Session.createdAt s /\
                SessionRead.name r = getattr_name s.
Proof.
  eexists. split; [reflexivity|].
  rewrite map_map. split; [|split].
  - rewrite length_map, page_length, order_desc_length. reflexivity.
  - apply (descending_by_map Session.createdAt); [reflexivity|].
    apply descending_by_page.
  - intros r Hr. apply in_map_iff in Hr. destruct Hr as [s [<- Hs]].
    apply page_In, order_desc_In in Hs. exists s. repeat split. exact Hs.
Qed.

(** X5: with [offset] 0 and a [limit] that is at least the number of
    sessions, [list_sessions] answers with every session of the table, each
    one once: the ids of the answer are the ids of the table up to their
    order. *)
Theorem list_sessions_all (db : Db) (limit : nat) :
  (List.length (session_rows db) <= limit)%nat ->
  exists sessions,
    list_sessions 0 limit db = (db, inr sessions) /\
    Permutation (map SessionRead.id sessions) (map Session.id (session_rows db)).
Proof.
  intros Hlimit. eexists. split; [reflexivity|].
  rewrite !map_map. unfold page. cbn [skipn].
  rewrite firstn_all2 by (rewrite order_desc_length; exact Hlimit).
  cbn [SessionRead_of SessionRead.id].
  apply Permutation_map, order_desc_Permutation.
Qed.

Lemma list_sessions_all_witness :
  (List.length (session_rows db_sample) <= 50)%nat /\
  exists sessions,
    list_sessions 0 50 db_sample = (db_sample, inr sessions) /\
    Permutation (map SessionRead.id sessions) [1; 2].
Proof.
  assert (H : (List.length (session_rows db_sample) <= 50)%nat) by (simpl; lia).
  split; [exact H|].
  exact (list_sessions_all db_sample 50 H).
Defined.

(** ** The listing of the results of a session *)

Lemma load_issues_detected_stored (text : option string) (db : Db) :
  load_issues_detected text db =
  (db, match stored_issues text with
       | Some issues => inr issues
       | None => inl InternalServerError
       end).
Proof.
  destruct text as [[|c text]|]; try reflexivity.
  unfold load_issues_detected, stored_issues, load_issues, bind, or_raise.
  destruct (json_loads (String c text)) as [raw|]; [|reflexivity].
  cbn [ret]. destruct (list_validate IssueType_validate raw); reflexivity.
Qed.

Lemma SessionResultRead_of_present (r : SessionResult.t) (db : Db) :
  SessionResultRead_of r db =
  (db, match present_result r with
       | Some v => inr v
       | None => inl InternalServerError
       end).
Proof.
  unfold SessionResultRead_of, bind, present_result.
  rewrite load_issues_detected_stored.
  destruct (stored_issues (SessionResult.issuesDetected r)) as [issues|];
    [|reflexivity].
  destruct (ResultStatus_validate (SessionResult.status r)); reflexivity.
Qed.

Lemma for_each_present (l : list SessionResult.t) (db : Db) :
  for_each SessionResultRead_of l db =
  (db, match present_all l with
       | Some out => inr out
       | None => inl InternalServerError
       end).
Proof.
  induction l as [|r l IH]; [reflexivity|].
  cbn [for_each present_all]. unfold bind at 1.
  rewrite SessionResultRead_of_present.
  destruct (present_result r) as [v|]; [|reflexivity].
  unfold bind. rewrite IH. destruct (present_all l); reflexivity.
Qed.

Lemma list_session_results_present (db : Db) (session_id : Z) (offset limit : nat) :
  list_session_results session_id offset limit db =
  (db, match present_all (results_page db session_id offset limit) with
       | Some out => inr out
       | None => inl InternalServerError
       end).
Proof.
  unfold list_session_results, bind, db_sessionresult_find_many.
  fold (results_page db session_id offset limit). apply for_each_present.
Qed.

Lemma present_all_Some (l : list SessionResult.t) :
  (forall r, In r l -> present_result r <> None) ->
  exists out, present_all l = Some out.
Proof.
  induction l as [|r l IH]; intros H; [now exists []|].
  cbn [present_all].
  destruct (present_result r) as [v|] eqn:Hr;
    [|exfalso; exact (H r (or_introl eq_refl) Hr)].
  destruct IH as [out ->]; [intros r' Hr'; apply H; now right|].
  now exists (v :: out).
Qed.

Lemma present_all_Forall2 (l : list SessionResult.t) :
  forall out,
    present_all l = Some out ->
    Forall2 (fun r v => present_result r = Some v) l out.
Proof.
  induction l as [|r l IH]; intros out H; cbn [present_all] in H.
  - injection H as <-. constructor.
  - destruct (present_result r) as [v|] eqn:Hr; [|discriminate].
    destruct (present_all l) as [out'|]; [|discriminate].
    injection H as <-. constructor; [exact Hr | now apply IH].
Qed.

Lemma present_all_None (l : list SessionResult.t) (r : SessionResult.t) :
  In r l -> present_result r = None -> present_all l = None.
Proof.
  induction l as [|a l IH]; [intros []|].
  intros [-> | Hin] Hr; cbn [present_all].
  - now rewrite Hr.
  - rewrite (IH Hin Hr). now destruct (present_result a).
Qed.

Lemma Forall2_In_r {A B : Type} (R : A -> B -> Prop) (l : list A) (l' : list B) (y : B) :
  Forall2 R l l' -> In y l' -> exists x, In x l /\ R x y.
Proof.
  induction 1 as [|a b l l' Hab _ IH]; [intros []|].
  intros [<- | Hy].
  - exists a. split; [now left | exact Hab].
  - destruct (IH Hy) as [x [Hx Hxy]]. exists x. split; [now right | exact Hxy].
Qed.

Lemma Forall2_length_eq {A B : Type} (R : A -> B -> Prop) (l : list A) (l' : list B) :
  Forall2 R l l' -> List.length l' = List.length l.
Proof. induction 1; simpl; congruence. Qed.

Lemma descending_by_Forall2 {A B : Type} (keyA : A -> Z) (keyB : B -> Z)
  (R : A -> B -> Prop) (l : list A) (l' : list B) :
  (forall a b, R a b -> keyB b = keyA a) ->
  Forall2 R l l' -> descending_by keyA l -> descending_by keyB l'.
Proof.
  intros Hk. induction 1 as [|a b l l' Hab Hl IH]; intros Hd; [exact I|].
  destruct Hd as [Ha Hd]. split; [|now apply IH].
  intros y Hy. destruct (Forall2_In_r R l l' y Hl Hy) as [x [Hx Hxy]].
  rewrite (Hk _ _ Hxy), (Hk _ _ Hab). now apply Ha.
Qed.

Lemma present_result_fields (r : SessionResult.t) (v : SessionResultRead.t) :
  present_result r = Some v ->
  SessionResultRead.id v = SessionResult.id r /\
  SessionResultRead.created_at v = SessionResult.createdAt r /\
  SessionResultRead.session_id v = SessionResult.sessionId r /\
  SessionResultRead.tier v = SessionResult.tier r /\
  ResultStatus_str (SessionResultRead.status v) = SessionResult.status r /\
  stored_issues (SessionResult.issuesDetected r) = Some (SessionResultRead.issues_detected v).
Proof.
  unfold present_result.
  destruct (stored_issues (SessionResult.issuesDetected r)) as [issues|]; [|discriminate].
  destruct (ResultStatus_validate (SessionResult.status r)) as [st|] eqn:Hst;
    [|discriminate].
  intros [= <-]. cbn. repeat split.
  exact (proj2 (Literal_validate_sound _ _ _ _ Hst)).
Qed.

Lemma present_result_Some (r : SessionResult.t) :
  In (SessionResult.status r) ["pending"; "completed"; "error"] ->
  stored_issues (SessionResult.issuesDetected r) <> None ->
  present_result r <> None.
Proof.
  intros Hst Hi. unfold present_result.
  destruct (stored_issues (SessionResult.issuesDetected r)); [|congruence].
  destruct Hst as [<- | [<- | [<- | []]]]; discriminate.
Qed.

(** X6: when every result of the session has one of the three statuses
    and a tag text that can be read, [list_session_results] answers.  Its
    answer holds as many results as the session has beyond [offset], up to
    [limit] of them, newest first; each one belongs to the session of the
    path and carries the id, the tier, the status and the tags of a row of
    the Result table. *)
Theorem list_session_results_page (db : Db) (session_id : Z) (offset limit : nat) :
  (forall row, In row (sessionresult_rows db) ->
               SessionResult.sessionId row = session_id ->
               In (SessionResult.status row) ["pending"; "completed"; "error"] /\
               stored_issues (SessionResult.issuesDetected row) <> None) ->
  exists results,
    list_session_results session_id offset limit db = (db, inr results) /\
    List.length results =
      Nat.min limit
        (List.length (filter (fun r => (SessionResult.sessionId r =? session_id)%Z)
                        (sessionresult_rows db)) - offset) /\
    descending_by SessionResultRead.created_at results /\
    forall r, In r results ->
      SessionResultRead.session_id r = session_id /\
      exists row, In row (sessionresult_rows db) /\
                  SessionResultRead.id r = SessionResult.id row /\
                  SessionResultRead.tier r = SessionResult.tier row /\
                  ResultStatus_str (SessionResultRead.status r) = SessionResult.status row /\
                  stored_issues (SessionResult.issuesDetected row) =
                    Some (SessionResultRead.issues_detected r).
Proof.
  intros Hrows.
  assert (Hpage : forall row, In row (results_page db session_id offset limit) ->
            In row (sessionresult_rows db) /\ SessionResult.sessionId row = session_id).
  { intros row Hrow. unfold results_page in Hrow.
    apply page_In, order_desc_In, filter_In in Hrow. destruct Hrow as [Hin Hs].
    split; [exact Hin | lia]. }
  destruct (present_all_Some (results_page db session_id offset limit)) as [out Hout].
  { intros row Hrow. destruct (Hpage row Hrow) as [Hin Hs].
    destruct (Hrows row Hin Hs). now apply present_result_Some. }
  exists out. rewrite list_session_results_present, Hout.
  split; [reflexivity|].
  pose proof (present_all_Forall2 _ _ Hout) as HF.
  split; [|split].
  - rewrite (Forall2_length_eq _ _ _ HF). unfold results_page.
    rewrite page_length, order_desc_length. reflexivity.
  - apply (descending_by_Forall2 SessionResult.createdAt _ _ _ _
             (fun a b H => proj1 (proj2 (present_result_fields a b H))) HF).
    apply descending_by_page.
  - intros r Hr. destruct (Forall2_In_r _ _ _ _ HF Hr) as [row [Hrow Hp]].
    destruct (Hpage row Hrow) as [Hin Hs].
    destruct (present_result_fields row r Hp) as [H1 [_ [H3 [H4 [H5 H6]]]]].
    split; [congruence|]. exists row. repeat split; assumption.
Qed.

Lemma list_session_results_page_witness :
  (forall row, In row (sessionresult_rows db_sample) ->
               SessionResult.sessionId row = 2 ->
               In (SessionResult.status row) ["pending"; "completed"; "error"] /\
               stored_issues (SessionResult.issuesDetected row) <> None) /\
  exists results,
    list_session_results 2 0 50 db_sample = (db_sample, inr results) /\
    List.length results = 1%nat.
Proof.
  assert (H : forall row, In row (sessionresult_rows db_sample) ->
               SessionResult.sessionId row = 2 ->
               In (SessionResult.status row) ["pending"; "completed"; "error"] /\
               stored_issues (SessionResult.issuesDetected row) <> None).
  { intros row [<- | []] _. split; [simpl; auto | discriminate]. }
  split; [exact H|].
  destruct (list_session_results_page db_sample 2 0 50 H) as [results [Hrun [Hlen _]]].
  exists results. split; [exact Hrun | exact Hlen].
Defined.

(** X7: one result on the requested page whose stored status is none of
    "pending", "completed" and "error" makes [list_session_results] fail
    as an unhandled exception: no result of the page is returned.  The
    store is left as it was. *)
Theorem list_session_results_odd_status (db : Db) (session_id : Z) (offset limit : nat)
  (row : SessionResult.t) :
  In row (results_page db session_id offset limit) ->
  ~ In (SessionResult.status row) ["pending"; "completed"; "error"] ->
  list_session_results session_id offset limit db = (db, inl InternalServerError).
Proof.
  intros Hrow Hst. rewrite list_session_results_present.
  rewrite (present_all_None _ row Hrow); [reflexivity|].
  unfold present_result, ResultStatus_validate.
  rewrite (Literal_validate_None ResultStatus_str ResultStatus_args _ Hst).
  now destruct (stored_issues (SessionResult.issuesDetected row)).
Qed.

Lemma list_session_results_odd_status_witness :
  In odd_result (results_page db_odd_status 2 0 50) /\
  list_session_results 2 0 50 db_odd_status = (db_odd_status, inl InternalServerError).
Proof.
  assert (H : In odd_result (results_page db_odd_status 2 0 50)) by (simpl; auto).
  split; [exact H|].
  apply (list_session_results_odd_status db_odd_status 2 0 50 odd_result H).
  simpl. intros H'. repeat (destruct H' as [H'|H']; [discriminate H'|]). exact H'.
Defined.

(** ** What a patch writes, and patches in a row *)

Lemma update_session_result_guard (db : Db) (session_id result_id : Z)
  (body : SessionResultUpdate.t) :
  (forall found, result_row db result_id = Some found ->
                 SessionResult.sessionId found <> session_id) ->
  update_session_result session_id result_id body db =
    (db, inl (HTTPException 404 "Result not found for session")).
Proof.
  intros H. unfold update_session_result, bind, db_sessionresult_find_unique.
  fold (result_row db result_id).
  destruct (result_row db result_id) as [found|]; [|reflexivity].
  rewrite (proj2 (Z.eqb_neq _ _) (H found eq_refl)). reflexivity.
Qed.

(** The store a patch leaves: the one it was given, or that one after
    one [db.sessionresult.update] on the id of the path. *)
Lemma PATCH_session_result_store (session_id result_id : Z) (b : ResultBody.t) (db : Db) :
  fst (PATCH_session_result session_id result_id b db) = db \/
  exists data,
    fst (PATCH_session_result session_id result_id b db) =
    with_result_update db result_id data.
Proof.
  unfold PATCH_session_result, bind.
  destruct (SessionResultUpdate_validate b) as [body|]; cbn [or_raise ret raise];
    [|now left].
  destruct (result_row db result_id) as [found|] eqn:Hfound.
  - destruct (Z.eq_dec (SessionResult.sessionId found) session_id) as [Hs|Hs].
    + rewrite (update_session_result_found db session_id result_id body found Hfound Hs).
      destruct (SessionResultUpdateInput.truthy _);
        rewrite SessionResultRead_of_fst; [|now left].
      right. eexists. reflexivity.
    + rewrite update_session_result_guard; [now left|].
      intros found' E. rewrite Hfound in E. now injection E as <-.
  - rewrite update_session_result_guard; [now left|].
    intros found' E. rewrite Hfound in E. discriminate.
Qed.

Lemma SessionResult_set_same_but (data : SessionResultUpdateInput.t) (r : SessionResult.t) :
  same_but_tier_status r (SessionResult_set data r).
Proof. repeat split. Qed.

Lemma with_result_update_other (db : Db) (result_id other : Z)
  (data : SessionResultUpdateInput.t) :
  other <> result_id ->
  result_row (with_result_update db result_id data) other = result_row db other.
Proof.
  intros Hne. unfold result_row, with_result_update, db_sessionresult_update.
  cbn [fst sessionresult_rows].
  rewrite (find_map_preserved (fun r => SessionResult.id r =? other)).
  - destruct (find (fun r => SessionResult.id r =? other) (sessionresult_rows db))
      as [r|] eqn:Hf; [|reflexivity].
    apply find_some in Hf. destruct Hf as [_ Hid]. apply Z.eqb_eq in Hid.
    cbn [option_map]. rewrite Hid, (proj2 (Z.eqb_neq _ _) Hne). reflexivity.
  - intros a. now destruct (SessionResult.id a =? result_id).
Qed.

(** X8: whatever its arguments and its outcome, a patch leaves the
    Session table, the Search table and both id sequences as they were; the
    Result table keeps its rows in place, each with every column other than
    [tier] and [status] unchanged, and a result with another id than the
    one of the path is not changed at all. *)
Theorem PATCH_session_result_frame (db : Db) (session_id result_id : Z) (b : ResultBody.t) :
  let db' := fst (PATCH_session_result session_id result_id b db) in
  session_rows db' = session_rows db /\
  sessionsearch_rows db' = sessionsearch_rows db /\
  session_seq db' = session_seq db /\
  sessionsearch_seq db' = sessionsearch_seq db /\
  Forall2 same_but_tier_status (sessionresult_rows db) (sessionresult_rows db') /\
  forall other, other <> result_id -> result_row db' other = result_row db other.
Proof.
  intros db'. subst db'.
  destruct (PATCH_session_result_store session_id result_id b db) as [-> | [data ->]].
  - repeat (split; [reflexivity|]). split; [|reflexivity].
    induction (sessionresult_rows db); constructor; [repeat split | assumption].
  - repeat (split; [reflexivity|]). split.
    + unfold with_result_update, db_sessionresult_update. cbn [fst sessionresult_rows].
      induction (sessionresult_rows db) as [|a l IH]; cbn [map]; constructor;
        [|exact IH].
      destruct (SessionResult.id a =? result_id);
        [apply SessionResult_set_same_but | repeat split].
    + intros other Hne. now apply with_result_update_other.
Qed.

Lemma SessionResult_set_twice (data : SessionResultUpdateInput.t) (r : SessionResult.t) :
  SessionResult_set data (SessionResult_set data r) = SessionResult_set data r.
Proof. destruct data as [[t|] [s|]]; reflexivity. Qed.

Lemma with_result_update_then (db : Db) (result_id : Z)
  (d1 d2 d : SessionResultUpdateInput.t) :
  (forall r, SessionResult_set d2 (SessionResult_set d1 r) = SessionResult_set d r) ->
  with_result_update (with_result_update db result_id d1) result_id d2 =
  with_result_update db result_id d.
Proof.
  intros Hset. unfold with_result_update, db_sessionresult_update.
  cbn [fst session_rows sessionsearch_rows sessionresult_rows session_seq
       sessionsearch_seq].
  f_equal. rewrite map_map. apply map_ext. intros a.
  destruct (SessionResult.id a =? result_id) eqn:E.
  - change (SessionResult.id (SessionResult_set d1 a)) with (SessionResult.id a).
    rewrite E. apply Hset.
  - rewrite E. reflexivity.
Qed.

(** X9: a patch is idempotent: the same patch made again on the store
    the first one left gives the same outcome and the same store as the
    first one, whether it answered or failed. *)
Theorem update_session_result_idempotent (db : Db) (session_id result_id : Z)
  (body : SessionResultUpdate.t) :
  update_session_result session_id result_id body
    (fst (update_session_result session_id result_id body db)) =
  update_session_result session_id result_id body db.
Proof.
  destruct (result_row db result_id) as [found|] eqn:Hfound.
  - destruct (Z.eq_dec (SessionResult.sessionId found) session_id) as [Hs|Hs].
    + rewrite (update_session_result_found db session_id result_id body found Hfound Hs).
      set (data := SessionResultUpdateInput.mk (SessionResultUpdate.tier body)
                     (option_map ResultStatus_str (SessionResultUpdate.status body))).
      destruct (SessionResultUpdateInput.truthy data) eqn:Htr;
        rewrite SessionResultRead_of_fst.
      * destruct (db_sessionresult_update_found db result_id data found Hfound)
          as [_ Hrow].
        rewrite (update_session_result_found _ session_id result_id body
                   (SessionResult_set data found) Hrow Hs).
        fold data. rewrite Htr, SessionResult_set_twice.
        rewrite (with_result_update_then db result_id data data data).
        -- reflexivity.
        -- apply SessionResult_set_twice.
      * rewrite (update_session_result_found db session_id result_id body found Hfound Hs).
        fold data. rewrite Htr. reflexivity.
    + assert (E : update_session_result session_id result_id body db =
                  (db, inl (HTTPException 404 "Result not found for session"))).
      { apply update_session_result_guard. intros f Hf. rewrite Hfound in Hf.
        now injection Hf as <-. }
      rewrite E. exact E.
  - assert (E : update_session_result session_id result_id body db =
                (db, inl (HTTPException 404 "Result not found for session"))).
    { apply update_session_result_guard. intros f Hf. rewrite Hfound in Hf.
      discriminate. }
    rewrite E. exact E.
Qed.

(** X11: on a result of the session, a patch of the tier followed by a
    patch of the status, or the two in the other order, gives the outcome
    and the store of the one patch that carries both. *)
Theorem update_session_result_in_two_steps (db : Db) (session_id result_id : Z)
  (found : SessionResult.t) (tier : Tier) (status : ResultStatus) :
  result_row db result_id = Some found ->
  SessionResult.sessionId found = session_id ->
  let both := update_session_result session_id result_id
                (SessionResultUpdate.mk (Some tier) (Some status)) db in
  update_session_result session_id result_id (SessionResultUpdate.mk None (Some status))
    (fst (update_session_result session_id result_id
            (SessionResultUpdate.mk (Some tier) None) db)) = both /\
  update_session_result session_id result_id (SessionResultUpdate.mk (Some tier) None)
    (fst (update_session_result session_id result_id
            (SessionResultUpdate.mk None (Some status)) db)) = both.
Proof.
  intros Hfound Hs both. subst both.
  rewrite !(update_session_result_found db session_id result_id _ found Hfound Hs).
  cbn [SessionResultUpdate.tier SessionResultUpdate.status option_map
       SessionResultUpdateInput.truthy SessionResultUpdateInput.tier
       SessionResultUpdateInput.status].
  rewrite !SessionResultRead_of_fst.
  split.
  - destruct (db_sessionresult_update_found db result_id
                (SessionResultUpdateInput.mk (Some tier) None) found Hfound) as [_ Hrow].
    rewrite (update_session_result_found _ session_id result_id _ _ Hrow Hs).
    cbn [SessionResultUpdate.tier SessionResultUpdate.status option_map
         SessionResultUpdateInput.truthy SessionResultUpdateInput.tier
         SessionResultUpdateInput.status].
    rewrite (with_result_update_then db result_id _ _
               (SessionResultUpdateInput.mk (Some tier) (Some (ResultStatus_str status))));
      [reflexivity | reflexivity].
  - destruct (db_sessionresult_update_found db result_id
                (SessionResultUpdateInput.mk None (Some (ResultStatus_str status)))
                found Hfound) as [_ Hrow].
    rewrite (update_session_result_found _ session_id result_id _ _ Hrow Hs).
    cbn [SessionResultUpdate.tier SessionResultUpdate.status option_map
         SessionResultUpdateInput.truthy SessionResultUpdateInput.tier
         SessionResultUpdateInput.status].
    rewrite (with_result_update_then db result_id _ _
               (SessionResultUpdateInput.mk (Some tier) (Some (ResultStatus_str status))));
      [reflexivity | reflexivity].
Qed.

Lemma update_session_result_in_two_steps_witness :
  result_row db_sample 7 = Some sample_result /\
  SessionResult.sessionId sample_result = 2 /\
  update_session_result 2 7 (SessionResultUpdate.mk None (Some Completed))
    (fst (update_session_result 2 7 (SessionResultUpdate.mk (Some 4.0%float) None)
            db_sample)) =
  update_session_result 2 7 (SessionResultUpdate.mk (Some 4.0%float) (Some Completed))
    db_sample.
Proof.
  split; [reflexivity|]. split; [reflexivity|].
  exact (proj1 (update_session_result_in_two_steps db_sample 2 7 sample_result
                  4.0%float Completed eq_refl eq_refl)).
Defined.

(** ** The Search an upsert leaves *)

Lemma SessionSearch_set_twice (data : SessionSearchUpdateInput.t) (r : SessionSearch.t) :
  SessionSearch_set data (SessionSearch_set data r) = SessionSearch_set data r.
Proof. reflexivity. Qed.

Lemma search_of_session_after_update (db : Db) (session_id : Z)
  (found : SessionSearch.t) (data : SessionSearchUpdateInput.t) :
  search_of_session db session_id = Some found ->
  search_of_session (with_search_update db (SessionSearch.id found) data) session_id =
    Some (SessionSearch_set data found).
Proof.
  intros Hsearch.
  unfold search_of_session, with_search_update, db_sessionsearch_update.
  cbn [fst sessionsearch_rows].
  rewrite (find_map_preserved (fun r => SessionSearch.sessionId r =? session_id)).
  - unfold search_of_session in Hsearch. rewrite Hsearch. cbn [option_map].
    now rewrite Z.eqb_refl.
  - intros a. now destruct (SessionSearch.id a =? SessionSearch.id found).
Qed.

(** The outcome of an upsert on an existing session: the store it leaves
    holds, as the Search of the session, a row that carries the data of the
    body, and the answer presents that row when the ids of the table are
    distinct. *)
Lemma upsert_session_search_leaves (db : Db) (session_id : Z)
  (body : SessionSearchCreate.t) (session : Session.t) :
  session_row db session_id = Some session ->
  exists db' first row',
    upsert_session_search session_id body db =
      (db', inr (present_search first (SessionSearchCreate.issues body))) /\
    search_of_session db' session_id = Some row' /\
    SessionSearch_set (upsert_data body) row' = row' /\
    SessionSearch.sessionId row' = session_id /\
    session_rows db' = session_rows db /\
    session_seq db' = session_seq db /\
    sessionresult_rows db' = sessionresult_rows db /\
    (NoDup (map SessionSearch.id (sessionsearch_rows db)) -> first = row') /\
    (search_ids_issued db -> search_ids_issued db').
Proof.
  intros Hsession.
  pose proof (upsert_session_search_paths db session_id body session Hsession) as Hp.
  destruct (search_of_session db session_id) as [found|] eqn:Hsearch.
  - destruct Hp as [first [Hfirst Hrun]].
    pose proof (search_of_session_Some db session_id found Hsearch) as [Hin Hsid].
    exists (with_search_update db (SessionSearch.id found) (upsert_data body)),
      (SessionSearch_set (upsert_data body) first),
      (SessionSearch_set (upsert_data body) found).
    split; [exact Hrun|].
    split; [now apply search_of_session_after_update|].
    split; [reflexivity|]. split; [exact Hsid|].
    repeat (split; [reflexivity|]).
    split.
    + intros Hnd. f_equal. apply find_some in Hfirst. destruct Hfirst as [Hf Hid].
      apply Z.eqb_eq in Hid.
      exact (NoDup_map_eq SessionSearch.id _ first found Hnd Hf Hin Hid).
    + intros [Hnd Hlt]. unfold search_ids_issued, with_search_update,
        db_sessionsearch_update. cbn [fst sessionsearch_rows sessionsearch_seq].
      split.
      * rewrite map_key_preserved; [exact Hnd|].
        intros a. now destruct (SessionSearch.id a =? SessionSearch.id found).
      * intros r Hr. apply in_map_iff in Hr. destruct Hr as [r0 [<- Hr0]].
        specialize (Hlt r0 Hr0).
        now destruct (SessionSearch.id r0 =? SessionSearch.id found).
  - cbn zeta in Hp. eexists _, _, _. split; [exact Hp|].
    split.
    { unfold search_of_session. cbn [sessionsearch_rows].
      unfold search_of_session in Hsearch.
      rewrite (find_app_None _ _ _ Hsearch). cbn [SessionSearch.sessionId].
      rewrite Z.eqb_refl. reflexivity. }
    split; [reflexivity|]. split; [reflexivity|].
    repeat (split; [reflexivity|]).
    intros [Hnd Hlt]. unfold search_ids_issued.
    cbn [sessionsearch_rows sessionsearch_seq]. split.
    + rewrite map_app. cbn [map SessionSearch.id]. apply NoDup_snoc; [exact Hnd|].
      intros Hin. apply in_map_iff in Hin. destruct Hin as [r [Hid Hr]].
      specialize (Hlt r Hr). lia.
    + intros r Hr. apply in_app_or in Hr. destruct Hr as [Hr | [<- | []]].
      * specialize (Hlt r Hr). lia.
      * cbn. lia.
Qed.

Lemma with_search_update_same (db : Db) (row : SessionSearch.t)
  (data : SessionSearchUpdateInput.t) :
  NoDup (map SessionSearch.id (sessionsearch_rows db)) ->
  In row (sessionsearch_rows db) ->
  SessionSearch_set data row = row ->
  with_search_update db (SessionSearch.id row) data = db.
Proof.
  intros Hnd Hin Hset. destruct db as [sessions searches results seq1 seq2].
  unfold with_search_update, db_sessionsearch_update.
  cbn [fst session_rows sessionsearch_rows sessionresult_rows session_seq
       sessionsearch_seq] in *.
  f_equal. rewrite <- (map_id searches) at 2. apply map_ext_in.
  intros a Ha. destruct (Z.eqb_spec (SessionSearch.id a) (SessionSearch.id row)) as [E|E];
    [|reflexivity].
  rewrite (NoDup_map_eq SessionSearch.id searches a row Hnd Ha Hin E). exact Hset.
Qed.

(** X13: on an existing session, in a store whose Search ids are
    distinct and issued, the read that follows an upsert answers with the
    very object the upsert answered with; that object names the session of
    the path and holds the query, the tags and the result cap of the body. *)
Theorem get_session_search_after_upsert (db : Db) (session_id : Z)
  (body : SessionSearchCreate.t) (session : Session.t) :
  session_row db session_id = Some session ->
  search_ids_issued db ->
  exists db' answer,
    upsert_session_search session_id body db = (db', inr answer) /\
    get_session_search session_id db' = (db', inr answer) /\
    SessionSearchRead.session_id answer = session_id /\
    SessionSearchRead.query answer = SessionSearchCreate.query body /\
    SessionSearchRead.issues answer = SessionSearchCreate.issues body /\
    SessionSearchRead.max_results_requested answer = SessionSearchCreate.max_results body.
Proof.
  intros Hsession [Hnd Hlt].
  destruct (upsert_session_search_leaves db session_id body session Hsession)
    as [db' [first [row' [Hrun [Hrow [Hset [Hsid [_ [_ [_ [Hfirst _]]]]]]]]]]].
  rewrite (Hfirst Hnd) in Hrun.
  exists db', (present_search row' (SessionSearchCreate.issues body)).
  split; [exact Hrun|]. split.
  - unfold get_session_search, bind, db_sessionsearch_find_unique. rewrite Hrow.
    apply SessionSearchRead_of_dumps. rewrite <- Hset. reflexivity.
  - cbn [present_search SessionSearchRead.session_id SessionSearchRead.query
         SessionSearchRead.issues SessionSearchRead.max_results_requested].
    split; [exact Hsid|]. split; [now rewrite <- Hset|].
    split; [reflexivity | now rewrite <- Hset].
Qed.

(** X12: on an existing session, in a store whose Search ids are
    distinct and issued, an upsert is idempotent: the same upsert made
    again on the store the first one left answers the same and leaves that
    store as it is. *)
Theorem upsert_session_search_idempotent (db : Db) (session_id : Z)
  (body : SessionSearchCreate.t) (session : Session.t) :
  session_row db session_id = Some session ->
  search_ids_issued db ->
  exists db' answer,
    upsert_session_search session_id body db = (db', inr answer) /\
    upsert_session_search session_id body db' = (db', inr answer).
Proof.
  intros Hsession Hids.
  destruct (upsert_session_search_leaves db session_id body session Hsession)
    as [db' [first [row' [Hrun [Hrow [Hset [Hsid [Hs [_ [_ [Hfirst Hids']]]]]]]]]]].
  rewrite (Hfirst (proj1 Hids)) in Hrun.
  exists db', (present_search row' (SessionSearchCreate.issues body)).
  split; [exact Hrun|].
  assert (Hsession' : session_row db' session_id = Some session)
    by (unfold session_row; rewrite Hs; exact Hsession).
  destruct (Hids' Hids) as [Hnd' _].
  pose proof (upsert_session_search_paths db' session_id body session Hsession') as Hp.
  rewrite Hrow in Hp. destruct Hp as [first' [Hfirst' Hrun']].
  pose proof (search_of_session_Some db' session_id row' Hrow) as [Hin' _].
  assert (first' = row') as ->.
  { apply find_some in Hfirst'. destruct Hfirst' as [Hf Hid]. apply Z.eqb_eq in Hid.
    exact (NoDup_map_eq SessionSearch.id _ first' row' Hnd' Hf Hin' Hid). }
  rewrite Hrun', Hset, (with_search_update_same db' row' _ Hnd' Hin' Hset).
  reflexivity.
Qed.

Lemma search_ids_issued_sample : search_ids_issued db_sample.
Proof.
  split.
  - simpl. repeat constructor. intros [].
  - intros r [<- | []]. reflexivity.
Qed.

Lemma get_session_search_after_upsert_witness :
  session_row db_sample 1 = Some (Session.mk 1 100 None) /\
  search_ids_issued db_sample /\
  exists db' answer,
    upsert_session_search 1 (SessionSearchCreate.mk "roofers" [SlowPerformance] 5)
      db_sample = (db', inr answer) /\
    get_session_search 1 db' = (db', inr answer) /\
    SessionSearchRead.query answer = "roofers".
Proof.
  split; [reflexivity|]. split; [exact search_ids_issued_sample|].
  destruct (get_session_search_after_upsert db_sample 1
              (SessionSearchCreate.mk "roofers" [SlowPerformance] 5)
              (Session.mk 1 100 None) eq_refl search_ids_issued_sample)
    as [db' [answer [H1 [H2 [_ [H3 _]]]]]].
  exists db', answer. split; [exact H1|]. split; [exact H2 | exact H3].
Defined.

Lemma upsert_session_search_idempotent_witness :
  session_row db_sample 2 = Some (Session.mk 2 200 None) /\
  search_ids_issued db_sample /\
  exists db' answer,
    upsert_session_search 2 (SessionSearchCreate.mk "roofers" [SlowPerformance] 5)
      db_sample = (db', inr answer) /\
    upsert_session_search 2 (SessionSearchCreate.mk "roofers" [SlowPerformance] 5)
      db' = (db', inr answer).
Proof.
  split; [reflexivity|]. split; [exact search_ids_issued_sample|].
  exact (upsert_session_search_idempotent db_sample 2
           (SessionSearchCreate.mk "roofers" [SlowPerformance] 5)
           (Session.mk 2 200 None) eq_refl search_ids_issued_sample).
Defined.

(** X19: after an upsert on an existing session, every listing of the
    sessions that shows this session shows it with [is_configured] true. *)
Theorem list_sessions_after_upsert (db : Db) (session_id : Z)
  (body : SessionSearchCreate.t) (session : Session.t) (offset limit : nat) :
  session_row db session_id = Some session ->
  exists db' answer sessions,
    upsert_session_search session_id body db = (db', inr answer) /\
    list_sessions offset limit db' = (db', inr sessions) /\
    forall r, In r sessions -> SessionRead.id r = session_id ->
              SessionRead.is_configured r = true.
Proof.
  intros Hsession.
  destruct (upsert_session_search_leaves db session_id body session Hsession)
    as [db' [first [row' [Hrun [Hrow _]]]]].
  eexists db', _, _. split; [exact Hrun|]. split; [reflexivity|].
  intros r Hr Hid. rewrite map_map in Hr. apply in_map_iff in Hr.
  destruct Hr as [s [<- _]]. cbn [SessionRead_of SessionRead.id] in Hid.
  cbn [SessionRead_of SessionRead.is_configured]. rewrite Hid, Hrow. reflexivity.
Qed.

Lemma list_sessions_after_upsert_witness :
  session_row db_sample 2 = Some (Session.mk 2 200 None) /\
  exists db' answer sessions,
    upsert_session_search 2 (SessionSearchCreate.mk "roofers" [SlowPerformance] 5)
      db_sample = (db', inr answer) /\
    list_sessions 0 50 db' = (db', inr sessions) /\
    forall r, In r sessions -> SessionRead.id r = 2 ->
              SessionRead.is_configured r = true.
Proof.
  split; [reflexivity|].
  exact (list_sessions_after_upsert db_sample 2
           (SessionSearchCreate.mk "roofers" [SlowPerformance] 5)
           (Session.mk 2 200 None) 0 50 eq_refl).
Defined.

(** ** Histories *)

Lemma step_sessions (e : event) (db : Db) :
  session_rows (fst (step e db)) = session_rows db \/
  exists now,
    session_rows (fst (step e db)) =
    (session_rows db ++ [Session.mk (session_seq db) now None])%list.
Proof.
  destruct e as [now | offset limit | session_id b | session_id
                | session_id offset limit | session_id result_id b
                | search_id status checked cursor completed | row];
    cbn [step fst].
  - right. exists now. reflexivity.
  - left. now rewrite read_only_list_sessions.
  - left. exact (proj1 (PUT_session_search_writes session_id b db)).
  - left. now rewrite read_only_get_session_search.
  - left. now rewrite read_only_list_session_results.
  - left. exact (proj1 (PATCH_session_result_writes session_id result_id b db)).
  - left. reflexivity.
  - left. unfold worker_result.
    now destruct (existsb _ (session_rows db)).
Qed.

(** X15: no request and no write of the worker removes or changes a row
    of the Session table: after every history, from every store, the table
    is the one before with rows added at its end. *)
Theorem sessions_only_added (es : list event) :
  forall db created,
    exists added,
      session_rows (fst (run es db created)) = (session_rows db ++ added)%list.
Proof.
  induction es as [|e es IH]; intros db created.
  - exists []. cbn [run fst]. now rewrite app_nil_r.
  - cbn [run].
    assert (Hstep : exists one, session_rows (fst (step e db)) =
                                (session_rows db ++ one)%list).
    { destruct (step_sessions e db) as [-> | [now ->]];
        [exists []; now rewrite app_nil_r | now eexists]. }
    destruct Hstep as [one Hone].
    destruct (step e db) as [db' [id|]]; cbn [fst] in Hone.
    + destruct (IH db' (id :: created)) as [added ->].
      exists (one ++ added)%list. now rewrite Hone, app_assoc.
    + destruct (IH db' created) as [added ->].
      exists (one ++ added)%list. now rewrite Hone, app_assoc.
Qed.

Lemma PUT_session_search_ids (session_id : Z) (b : SearchBody.t) (db : Db) :
  search_ids_issued db -> search_ids_issued (fst (PUT_session_search session_id b db)).
Proof.
  intros Hids. unfold PUT_session_search, bind.
  destruct (SessionSearchCreate_validate b) as [body|]; cbn [or_raise ret raise];
    [|exact Hids].
  destruct (session_row db session_id) as [session|] eqn:Hsession.
  - destruct (upsert_session_search_leaves db session_id body session Hsession)
      as [db' [first [row' [Hrun [_ [_ [_ [_ [_ [_ [_ Hkeep]]]]]]]]]]].
    rewrite Hrun. exact (Hkeep Hids).
  - unfold upsert_session_search, bind.
    rewrite db_session_find_unique_row, Hsession. exact Hids.
Qed.

Lemma step_search_ids (e : event) (db : Db) :
  search_ids_issued db -> search_ids_issued (fst (step e db)).
Proof.
  intros Hids.
  destruct e as [now | offset limit | session_id b | session_id
                | session_id offset limit | session_id result_id b
                | search_id status checked cursor completed | row];
    cbn [step fst].
  - exact Hids.
  - now rewrite read_only_list_sessions.
  - now apply PUT_session_search_ids.
  - now rewrite read_only_get_session_search.
  - now rewrite read_only_list_session_results.
  - destruct (PATCH_session_result_store session_id result_id b db)
      as [-> | [data ->]]; exact Hids.
  - destruct Hids as [Hnd Hlt]. unfold search_ids_issued, worker_progress.
    cbn [sessionsearch_rows sessionsearch_seq]. split.
    + rewrite map_key_preserved; [exact Hnd|].
      intros a. now destruct (SessionSearch.id a =? search_id).
    + intros r Hr. apply in_map_iff in Hr. destruct Hr as [r0 [<- Hr0]].
      specialize (Hlt r0 Hr0). now destruct (SessionSearch.id r0 =? search_id).
  - unfold worker_result. now destruct (existsb _ (session_rows db)).
Qed.

Lemma run_search_ids (es : list event) :
  forall db created,
    search_ids_issued db -> search_ids_issued (fst (run es db created)).
Proof.
  induction es as [|e es IH]; intros db created Hids; [exact Hids|].
  cbn [run]. pose proof (step_search_ids e db Hids) as Hstep.
  destruct (step e db) as [db' [id|]]; cbn [fst] in Hstep; now apply IH.
Qed.

Lemma step_session_ids (e : event) (db : Db) (created : list Z) :
  consistent db created ->
  NoDup (map Session.id (session_rows db)) ->
  NoDup (map Session.id (session_rows (fst (step e db)))).
Proof.
  intros Hc Hnd. destruct (step_sessions e db) as [-> | [now ->]]; [exact Hnd|].
  rewrite map_app. cbn [map Session.id]. apply NoDup_snoc; [exact Hnd|].
  intros Hin. apply in_map_iff in Hin. destruct Hin as [s [Hid Hs]].
  pose proof (session_ids_issued _ _ Hc s Hs). lia.
Qed.

Lemma run_session_ids (es : list event) :
  forall db created,
    consistent db created ->
    NoDup (map Session.id (session_rows db)) ->
    NoDup (map Session.id (session_rows (fst (run es db created)))).
Proof.
  induction es as [|e es IH]; intros db created Hc Hnd; [exact Hnd|].
  cbn [run]. pose proof (consistent_step e db created Hc) as Hstep.
  pose proof (step_session_ids e db created Hc Hnd) as Hnd'.
  destruct (step e db) as [db' [id|]]; cbn [fst snd] in Hstep, Hnd'; now apply IH.
Qed.

(** X14: after every history of requests and worker writes from the
    empty store, the constraints of the schema hold: the ids of the
    sessions are distinct, so are the ids of the Search rows, no session
    has two Search rows, and every Search and every Result belongs to a
    session of the Session table. *)
Theorem history_keeps_schema (es : list event) :
  let db := fst (run es empty_db []) in
  NoDup (map Session.id (session_rows db)) /\
  NoDup (map SessionSearch.id (sessionsearch_rows db)) /\
  one_search_per_session db /\
  searches_reference_sessions db /\
  results_reference_sessions db.
Proof.
  intros db. subst db.
  destruct (consistent_history es) as [_ _ H3 H4 H5].
  split; [apply run_session_ids; [apply consistent_empty | constructor]|].
  split; [|repeat split; assumption].
  apply (run_search_ids es empty_db []).
  split; [constructor | intros r []].
Qed.

(** ** A session just created *)

(** X16: in a store that keeps the constraints of the schema,
    [create_session] adds one row to the Session table, with the id it
    returns and the creation time it was given, and writes nothing else; on
    the store it leaves, the new session has no Search to read (404 "Search
    not configured for session") and an empty listing of results. *)
Theorem create_session_then_read (db : Db) (created : list Z) (now : Z) :
  consistent db created ->
  exists db' session,
    create_session now db = (db', inr session) /\
    session_rows db' =
      (session_rows db ++ [Session.mk (SessionRead.id session) now None])%list /\
    SessionRead.created_at session = now /\
    sessionsearch_rows db' = sessionsearch_rows db /\
    sessionresult_rows db' = sessionresult_rows db /\
    get_session_search (SessionRead.id session) db' =
      (db', inl (HTTPException 404 "Search not configured for session")) /\
    forall offset limit,
      list_session_results (SessionRead.id session) offset limit db' = (db', inr []).
Proof.
  intros [H1 _ _ H4 H5].
  eexists _, _. split; [reflexivity|].
  cbn [SessionRead.id SessionRead.created_at Session.id Session.createdAt
       session_rows sessionsearch_rows sessionresult_rows].
  repeat (split; [reflexivity|]).
  assert (Hfresh : ~ In (session_seq db) (map Session.id (session_rows db))).
  { intros Hin. apply in_map_iff in Hin. destruct Hin as [s [Heq Hs]].
    specialize (H1 s Hs). lia. }
  split.
  - unfold get_session_search, bind, db_sessionsearch_find_unique.
    match goal with
    | |- context [search_of_session ?d ?i] =>
        assert (E : search_of_session d i = None)
    end.
    { apply search_of_session_None. cbn [sessionsearch_rows].
      intros r Hr E. apply Hfresh. rewrite <- E. now apply H4. }
    rewrite E. reflexivity.
  - intros offset limit. rewrite list_session_results_present.
    unfold results_page. cbn [sessionresult_rows].
    rewrite filter_nil_iff;
      [cbn [order_desc fold_right]; rewrite page_nil; reflexivity|].
    intros r Hr. apply Z.eqb_neq. intros E. apply Hfresh. rewrite <- E.
    now apply H5.
Qed.

Lemma create_session_then_read_witness :
  consistent db_sample [2; 1] /\
  exists db' session,
    create_session 400 db_sample = (db', inr session) /\
    SessionRead.id session = 3 /\
    get_session_search 3 db' =
      (db', inl (HTTPException 404 "Search not configured for session")) /\
    list_session_results 3 0 50 db' = (db', inr []).
Proof.
  assert (H : consistent db_sample [2; 1]).
  { exact (consistent_history
             [POST_sessions 100; POST_sessions 200; PUT_search 1 plumbers;
              Worker_progress 1 "completed" 5 (Some "page-5") (Some 250);
              Worker_result sample_result]). }
  split; [exact H|].
  destruct (create_session_then_read db_sample [2; 1] 400 H)
    as [db' [session [Hrun [_ [_ [_ [_ [Hget Hlist]]]]]]]].
  exists db', session. split; [exact Hrun|].
  assert (Hid : SessionRead.id session = 3).
  { assert (E : snd (create_session 400 db_sample) = inr session)
      by (rewrite Hrun; reflexivity).
    cbn in E. injection E as <-. reflexivity. }
  split; [exact Hid|]. rewrite <- Hid. split; [exact Hget | exact (Hlist 0%nat 50%nat)].
Defined.

Lemma update_session_result_returns_witness :
  result_row db_sample 7 = Some sample_result /\
  SessionResult.sessionId sample_result = 2 /\
  snd (update_session_result 2 7
         (SessionResultUpdate.mk (Some 4.0%float) (Some Completed)) db_sample) =
  inr (SessionResultRead.mk 7 300 2 "https://example.org/" "example.org" 12 4.0%float
         [MissingH1; MissingH1] None None Completed).
Proof.
  split; [reflexivity|]. split; [reflexivity|].
  exact (update_session_result_returns db_sample 2 7
           (SessionResultUpdate.mk (Some 4.0%float) (Some Completed)) sample_result
           (SessionResultRead.mk 7 300 2 "https://example.org/" "example.org" 12
              2.5%float [MissingH1; MissingH1] None None Pending)
           eq_refl eq_refl eq_refl).
Defined.

(** ** The tags of a result *)

(** X17: a Result row whose status is one of the three values is
    presented with exactly the tags its [issuesDetected] text was dumped
    from, duplicates and order included, and with no tag at all when the
    text is missing or empty; the store is not written. *)
Theorem SessionResultRead_of_issues (r : SessionResult.t) (status : ResultStatus) (db : Db) :
  SessionResult.status r = ResultStatus_str status ->
  (forall tags,
     SessionResult.issuesDetected r = Some (json_dumps (map IssueType_str tags)) ->
     exists v, SessionResultRead_of r db = (db, inr v) /\
               SessionResultRead.issues_detected v = tags /\
               SessionResultRead.status v = status) /\
  (SessionResult.issuesDetected r = None \/
   SessionResult.issuesDetected r = Some EmptyString ->
   exists v, SessionResultRead_of r db = (db, inr v) /\
             SessionResultRead.issues_detected v = [] /\
             SessionResultRead.status v = status).
Proof.
  intros Hst. split.
  - intros tags Htext. rewrite SessionResultRead_of_present. unfold present_result.
    rewrite Htext, Hst, ResultStatus_validate_str.
    assert (E : stored_issues (Some (json_dumps (map IssueType_str tags))) = Some tags).
    { change (stored_issues (Some (json_dumps (map IssueType_str tags))))
        with (match json_loads (json_dumps (map IssueType_str tags)) with
              | Some raw => list_validate IssueType_validate raw
              | None => None
              end).
      rewrite json_loads_dumps. apply list_validate_map_str. }
    rewrite E. eexists. split; [reflexivity|]. split; reflexivity.
  - intros Htext. rewrite SessionResultRead_of_present. unfold present_result.
    rewrite Hst, ResultStatus_validate_str.
    destruct Htext as [-> | ->]; cbn [stored_issues];
      (eexists; split; [reflexivity|]; split; reflexivity).
Qed.

Lemma SessionResultRead_of_issues_witness :
  SessionResult.status sample_result = ResultStatus_str Pending /\
  SessionResult.issuesDetected sample_result =
    Some (json_dumps (map IssueType_str [MissingH1; MissingH1])) /\
  exists v, SessionResultRead_of sample_result db_sample = (db_sample, inr v) /\
            SessionResultRead.issues_detected v = [MissingH1; MissingH1] /\
            SessionResultRead.status v = Pending.
Proof.
  split; [reflexivity|]. split; [reflexivity|].
  exact (proj1 (SessionResultRead_of_issues sample_result Pending db_sample eq_refl)
           [MissingH1; MissingH1] eq_refl).
Defined.

(** ** The columns of the worker *)

Lemma Forall2_same_but_config_refl (l : list SessionSearch.t) :
  Forall2 same_but_config l l.
Proof. induction l; constructor; [repeat split | assumption]. Qed.

Lemma Forall2_same_but_config_set (id : Z) (data : SessionSearchUpdateInput.t)
  (l : list SessionSearch.t) :
  Forall2 same_but_config l
    (map (fun r => if SessionSearch.id r =? id then SessionSearch_set data r else r) l).
Proof.
  induction l as [|a l IH]; cbn [map]; constructor; [|exact IH].
  destruct (SessionSearch.id a =? id); repeat split.
Qed.

(** X18: no request to the API changes the id, the session, the status,
    [checkedWebsitesCount], [lastSearchCursor] or [completedAt] of a Search
    row, and none removes or moves one: after a request the Search table
    is the one before, each row with these columns as they were, followed
    by at most one new row. *)
Theorem requests_keep_worker_columns (e : event) (db : Db) :
  is_request e = true ->
  exists kept added,
    sessionsearch_rows (fst (step e db)) = (kept ++ added)%list /\
    Forall2 same_but_config (sessionsearch_rows db) kept /\
    (List.length added <= 1)%nat.
Proof.
  intros Hreq.
  assert (Hsame : forall db', sessionsearch_rows db' = sessionsearch_rows db ->
            exists kept added,
              sessionsearch_rows db' = (kept ++ added)%list /\
              Forall2 same_but_config (sessionsearch_rows db) kept /\
              (List.length added <= 1)%nat).
  { intros db' ->. exists (sessionsearch_rows db), []. rewrite app_nil_r.
    split; [reflexivity|]. split; [apply Forall2_same_but_config_refl | simpl; lia]. }
  destruct e as [now | offset limit | session_id b | session_id
                | session_id offset limit | session_id result_id b
                | search_id status checked cursor completed | row];
    try discriminate Hreq; cbn [step fst].
  - apply Hsame. reflexivity.
  - apply Hsame. now rewrite read_only_list_sessions.
  - destruct (PUT_session_search_writes session_id b db)
      as [_ [_ [_ [Hrows | [[row [Hrows _]] | [id [data Hrows]]]]]]].
    + now apply Hsame.
    + exists (sessionsearch_rows db), [row]. split; [exact Hrows|].
      split; [apply Forall2_same_but_config_refl | simpl; lia].
    + eexists _, []. rewrite app_nil_r. split; [exact Hrows|].
      split; [apply Forall2_same_but_config_set | simpl; lia].
  - apply Hsame. now rewrite read_only_get_session_search.
  - apply Hsame. now rewrite read_only_list_session_results.
  - apply Hsame.
    exact (proj1 (proj2 (proj2 (PATCH_session_result_writes session_id result_id b db)))).
Qed.

Lemma requests_keep_worker_columns_witness :
  is_request (PUT_search 1 plumbers) = true /\
  exists kept added,
    sessionsearch_rows (fst (step (PUT_search 1 plumbers) db_sample)) =
      (kept ++ added)%list /\
    Forall2 same_but_config (sessionsearch_rows db_sample) kept /\
    (List.length added <= 1)%nat.
Proof.
  split; [reflexivity|].
  exact (requests_keep_worker_columns (PUT_search 1 plumbers) db_sample eq_refl).
Defined.
